(** * Multimodal chat backend: context assembly, turn dispatch and session
      orchestration

    A shallow embedding of [backend/llm_service.py], [backend/file_handler.py]
    and the chat endpoints of [backend/main.py], with the properties of the
    conversation layer proved over it.

    Conventions.
    - Python [str] is a byte string ([string]); [bytes] is [list Byte.byte];
      [int] is [Z]; [Optional[T]] is [option T].
    - A raised exception is a value of [exn]; a call that may raise returns a
      [result].  Endpoints thread the persistent state ([World]: the
      relational store and the upload directory) explicitly, and return the
      state they leave behind also when they raise.
    - The hosted model and the image decoder are collaborators outside the
      repository: the decoder is a section variable, the behaviour of the
      model during one request is an argument of that request. *)

From Stdlib Require Import ZArith Ascii String List Lia.
From Stdlib.Strings Require Import Byte.
From stdpp Require Import base decidable option list gmap strings pretty sorting.

Local Open Scope Z_scope.

(** ** Python values used by the code *)

(** Exceptions.  [HTTPException] is FastAPI's; every other [Exception]
    subclass is kept as its class name and its [str(e)]. *)
Inductive exn : Type :=
| HTTPException (status_code : Z) (detail : string)
| PyException (cls : string) (msg : string).

(** [str(e)]: Starlette prints an [HTTPException] as ["<status>: <detail>"]. *)
Definition str_exn (e : exn) : string :=
  match e with
  | HTTPException c d => pretty c +:+ ": " +:+ d
  | PyException _ m => m
  end.

Inductive result (A : Type) : Type :=
| Return (a : A)
| Raise (e : exn).
Arguments Return {A} a.
Arguments Raise {A} e.

Definition is_raise {A} (r : result A) : bool :=
  match r with Raise _ => true | Return _ => false end.

(** Truthiness of an [Optional[str]] ([if image_path and ...]). *)
Definition truthy_str (o : option string) : bool :=
  match o with
  | Some (String _ _) => true
  | _ => false
  end.

(** [chat_history[:-1]]: all elements but the last; [[]] on the empty list. *)
Definition slice_to_minus_1 {A} (l : list A) : list A :=
  take (length l - 1)%nat l.

(** *** [str.lower], [str.rfind], [', '.join]  *)

(** ASCII case folding.  [str.lower] also folds non-ASCII letters, but none of
    them folds to an ASCII letter occurring in the allowed extensions, so the
    allow-list test below is the same on the UTF-8 bytes. *)
Definition lower_ascii (c : ascii) : ascii :=
  let n := nat_of_ascii c in
  if ((65 <=? n) && (n <=? 90))%nat then ascii_of_nat (n + 32) else c.

Fixpoint lower (s : string) : string :=
  match s with
  | EmptyString => EmptyString
  | String c s' => String (lower_ascii c) (lower s')
  end.

(** [s.rfind(c)]; [None] stands for Python's [-1]. *)
Fixpoint rfind (c : ascii) (s : string) : option nat :=
  match s with
  | EmptyString => None
  | String a s' =>
      match rfind c s' with
      | Some i => Some (S i)
      | None => if Ascii.eqb a c then Some 0%nat else None
      end
  end.

Fixpoint drop_str (n : nat) (s : string) : string :=
  match n, s with
  | O, _ => s
  | S n', String _ s' => drop_str n' s'
  | S _, EmptyString => EmptyString
  end.

Fixpoint join (sep : string) (l : list string) : string :=
  match l with
  | [] => ""
  | [x] => x
  | x :: l' => x +:+ sep +:+ join sep l'
  end.

(** [s.split('/')]. *)
Fixpoint split_slash_go (cur : string) (s : string) : list string :=
  match s with
  | EmptyString => [String.rev cur]
  | String c s' =>
      if Ascii.eqb c "/"%char
      then String.rev cur :: split_slash_go "" s'
      else split_slash_go (String c cur) s'
  end.
Definition split_slash (s : string) : list string := split_slash_go "" s.

(** *** [pathlib.PurePosixPath] *)
Module Path.
(** The components of a path: empty components and ["."] are dropped. *)
Definition parts (p : string) : list string :=
  filter (λ c, c ≠ "" ∧ c ≠ ".") (split_slash p).

(** [Path(p).name]: the final component, [""] when there is none. *)
Definition name (p : string) : string := default "" (last (parts p)).

(** [Path(p).suffix]:
    [i = name.rfind('.'); name[i:] if 0 < i < len(name) - 1 else ''].  *)
Definition suffix (p : string) : string :=
  let n := name p in
  match rfind "."%char n with
  | Some i =>
      if ((0 <? i) && (i <? String.length n - 1))%nat then drop_str i n else ""
  | None => ""
  end.

(** [Path(a) / b] for a relative, non-empty [b]. *)
Definition div (a b : string) : string := a +:+ "/" +:+ b.
End Path.
Infix "//" := Path.div (at level 40, left associativity).


(** ** Data model *)

(** A row of the [messages] table.  [models.py] is not part of the sources
    read here; the columns are those that [main.py] writes and
    [schemas.MessageResponse] reads back. *)
Record Message : Type := mkMessage {
  msg_id : Z;
  msg_session_id : Z;
  msg_role : string;
  msg_content : string;
  msg_image_path : option string;
  msg_created_at : Z
}.

(** A row of the [chat_sessions] table, keyed by its primary key in the
    store below (columns of [schemas.ChatSessionResponse]). *)
Record ChatSession : Type := mkChatSession {
  cs_user_id : Z;
  cs_title : string;
  cs_created_at : Z;
  cs_updated_at : Z
}.

Record User : Type := mkUser {
  user_id : Z;
  user_email : string;
  user_username : string
}.

(** The upload directory: regular files by path.  Directories are implicit
    (a directory exists when a file lies below it). *)
Abbreviation FS := (gmap string (list Byte.byte)).

(** [os.path.exists] on the path of a regular file. *)
Definition os_path_exists (fs : FS) (p : string) : bool :=
  bool_decide (is_Some (fs !! p)).

(** ** Context Builder and Turn Dispatcher ([llm_service.py]) *)

Section LLMService.
(** [PIL.Image]: the decoded image, and [Image.open] on the bytes of a
    file ([None] when Pillow cannot identify them). *)
Variable Image : Type.
Variable Image_open : list Byte.byte → option Image.

(** One part of a turn: a decoded image or a text. *)
Inductive Part : Type :=
| ImagePart (image : Image)
| TextPart (text : string).

(** The dict [{"role": role, "parts": parts}]. *)
Record Turn : Type := mkTurn {
  role : string;
  parts : list Part
}.

(** What the hosted model does with one [start_chat(history).send_message
    (parts)]: the call raises, or it returns a response.  Of the response
    the code uses the accessor [response.text] only, which belongs to the
    provider library: [text] is what that accessor gives for the response,
    the text, or the exception the library raises when the response has no
    text to give (a blocked or empty completion). *)
Inductive ProviderOutcome : Type :=
| ProviderRaises (e : exn)
| ProviderResponse (text : result string).

Definition Provider : Type := list Turn → list Part → ProviderOutcome.

(** [load_image(image_path)]: [Image.open] raises when the file is absent
    or is not an image. *)
Definition load_image (fs : FS) (image_path : string) : result Image :=
  match fs !! image_path with
  | None =>
      Raise (PyException "FileNotFoundError"
               ("[Errno 2] No such file or directory: '" +:+ image_path +:+ "'"))
  | Some bytes =>
      match Image_open bytes with
      | Some image => Return image
      | None =>
          Raise (PyException "UnidentifiedImageError"
                   ("cannot identify image file '" +:+ image_path +:+ "'"))
      end
  end.

(** The body of the loop of [build_message_history] (lines 48-67): the
    dict appended for [msg].  The image is loaded under a [try] whose
    handler only prints. *)
Definition message_turn (fs : FS) (msg : Message) : Turn :=
  let role := if bool_decide (msg_role msg = "assistant")
              then "model" else "user" in
  let parts := [] in
  let parts :=
    if truthy_str (msg_image_path msg)
       && os_path_exists fs (default "" (msg_image_path msg))
    then match load_image fs (default "" (msg_image_path msg)) with
         | Return image => parts ++ [ImagePart image]
         | Raise _ => parts
         end
    else parts in
  let parts := parts ++ [TextPart (msg_content msg)] in
  mkTurn role parts.

(** [build_message_history(chat_history)]: the [for] loop over
    [chat_history[:-1]] appends one dict per message to [messages]. *)
Definition build_message_history (fs : FS) (chat_history : list Message)
  : list Turn :=
  fold_left
    (λ (messages : list Turn) (msg : Message),
       messages ++ [message_turn fs msg])
    (slice_to_minus_1 chat_history)
    [].

(** Line 79: [build_message_history(chat_history) if chat_history else []]. *)
Definition history_of (fs : FS) (chat_history : option (list Message))
  : list Turn :=
  match chat_history with
  | None | Some [] => []
  | Some h => build_message_history fs h
  end.

(** Lines 82-93: the parts of the current turn. *)
Definition current_parts_of (fs : FS) (text : string)
    (image_path : option string) : list Part :=
  let current_parts := [] in
  let current_parts :=
    if truthy_str image_path && os_path_exists fs (default "" image_path)
    then match load_image fs (default "" image_path) with
         | Return image => current_parts ++ [ImagePart image]
         | Raise _ => current_parts
         end
    else current_parts in
  current_parts ++ [TextPart text].

(** [process_chat_message(text, image_path, chat_history)]: everything runs
    under one [try]; any exception is re-raised as
    [Exception("Error calling Gemini API: ...")]. *)
Definition process_chat_message (llm : Provider) (fs : FS) (text : string)
    (image_path : option string) (chat_history : option (list Message))
  : result string :=
  let history := history_of fs chat_history in
  let current_parts := current_parts_of fs text image_path in
  let attempt :=
    match llm history current_parts with
    | ProviderRaises e => Raise e
    | ProviderResponse text => text
    end in
  match attempt with
  | Return text => Return text
  | Raise e =>
      Raise (PyException "Exception"
               ("Error calling Gemini API: " +:+ str_exn e))
  end.

End LLMService.

Arguments ImagePart {Image} image.
Arguments TextPart {Image} text.
Arguments mkTurn {Image} role parts.
Arguments role {Image} t.
Arguments parts {Image} t.
Arguments load_image {Image} Image_open fs image_path.
Arguments message_turn {Image} Image_open fs msg.
Arguments build_message_history {Image} Image_open fs chat_history.
Arguments history_of {Image} Image_open fs chat_history.
Arguments current_parts_of {Image} Image_open fs text image_path.
Arguments process_chat_message {Image} Image_open llm fs text image_path chat_history.

(** The exception of line 105 for the underlying [cause]. *)
Definition provider_error (cause : exn) : exn :=
  PyException "Exception" ("Error calling Gemini API: " +:+ str_exn cause).

(** ** Blob store ([file_handler.py]) *)

Definition UPLOAD_DIR : string := "uploads".
Definition MAX_FILE_SIZE : Z := 10 * 1024 * 1024.
Definition ALLOWED_EXTENSIONS : gset string :=
  {[ ".jpg"; ".jpeg"; ".png"; ".gif"; ".webp" ]}.

(** FastAPI's [UploadFile]: the client's file name and the uploaded bytes. *)
Record UploadFile : Type := mkUploadFile {
  filename : string;
  content : list Byte.byte
}.

(** [p] lies below the directory [d]. *)
Definition below (d p : string) : bool := String.prefix (d +:+ "/") p.

(** [Path(d).exists()] for a directory. *)
Definition dir_exists (fs : FS) (d : string) : bool :=
  negb (bool_decide (filter (λ kv, below d kv.1 = true) fs = ∅)).

(** [shutil.rmtree(d)]. *)
Definition rmtree (d : string) (fs : FS) : FS :=
  filter (λ kv, below d kv.1 = false) fs.

(** What can go wrong between the validation and the return of
    [save_uploaded_image]. *)
Inductive DiskFault : Type :=
| MkdirFails (e : exn)
    (* [user_dir.mkdir(parents=True, exist_ok=True)] raises [e] *)
| OpenFails (e : exn)
    (* [open(file_path, "wb")] raises [e]: no file is created *)
| WriteFails (e : exn) (written : list Byte.byte).
    (* [file.read()] or [buffer.write] raises [e] after [open] has created
       the file, which is left holding [written] *)

(** What the process and the disk contribute to one call of
    [save_uploaded_image]: the order in which this process iterates the set
    [ALLOWED_EXTENSIONS] (it depends on the hash seed of the process), and
    the fault of the disk, if any. *)
Record Env : Type := mkEnv {
  set_order : list string;
  disk_fault : option DiskFault
}.

(** [save_uploaded_image(file, user_id, session_id)].  [uuid4] is the value
    [uuid.uuid4()] takes in this call.  The directory is made outside the
    [try], so its exception leaves the function as it is; the exceptions of
    [open], [read] and [write] are turned into the HTTP error 500, and a
    file that [open] has created stays. *)
Definition save_uploaded_image (uuid4 : string) (env : Env)
    (file : UploadFile) (user_id session_id : Z) (fs : FS)
  : result string * FS :=
  let file_extension := lower (Path.suffix (filename file)) in
  if bool_decide (file_extension ∉ ALLOWED_EXTENSIONS) then
    (Raise (HTTPException 400
       ("Invalid file type. Allowed types: "
          +:+ join ", " (set_order env))), fs)
  else
    let file_size := Z.of_nat (length (content file)) in
    if bool_decide (file_size > MAX_FILE_SIZE) then
      (Raise (HTTPException 400 "File too large. Maximum size: 10.0MB"), fs)
    else
      let unique_filename := uuid4 +:+ file_extension in
      let user_dir := UPLOAD_DIR // pretty user_id // pretty session_id in
      let file_path := user_dir // unique_filename in
      match disk_fault env with
      | Some (MkdirFails e) => (Raise e, fs)
      | Some (OpenFails e) =>
          (Raise (HTTPException 500 ("Failed to save file: " +:+ str_exn e)), fs)
      | Some (WriteFails e written) =>
          (Raise (HTTPException 500 ("Failed to save file: " +:+ str_exn e)),
           <[file_path := written]> fs)
      | None => (Return file_path, <[file_path := content file]> fs)
      end.

(** The exception of [delete_session_images] when the path of the session
    directory is a regular file: [exists()] holds and [shutil.rmtree]
    refuses it.  The upload code never creates such a file; the files are
    then left as [delete_session_images] below leaves them. *)
Definition delete_session_images_error (user_id session_id : Z) (fs : FS)
  : option exn :=
  let session_dir := UPLOAD_DIR // pretty user_id // pretty session_id in
  if bool_decide (is_Some (fs !! session_dir))
  then Some (PyException "NotADirectoryError"
               ("[Errno 20] Not a directory: '" +:+ session_dir +:+ "'"))
  else None.

(** [delete_session_images(user_id, session_id)]: the files it leaves. *)
Definition delete_session_images (user_id session_id : Z) (fs : FS) : FS :=
  let session_dir := UPLOAD_DIR // pretty user_id // pretty session_id in
  if dir_exists fs session_dir then rmtree session_dir fs else fs.

(** ** Session/Message store and the persistent state *)

(** The relational store and the upload directory.  [sessions] is the
    [chat_sessions] table by primary key, [messages] the [messages] table in
    insertion order. *)
Record World : Type := mkWorld {
  sessions : gmap Z ChatSession;
  messages : list Message;
  next_message_id : Z;
  clock : Z;
  fs : FS
}.

(** [ORDER BY created_at] as a stable insertion sort. *)
Fixpoint insert_by_created_at (m : Message) (l : list Message) : list Message :=
  match l with
  | [] => [m]
  | x :: l' =>
      if msg_created_at m <=? msg_created_at x then m :: x :: l'
      else x :: insert_by_created_at m l'
  end.

Fixpoint order_by_created_at (l : list Message) : list Message :=
  match l with
  | [] => []
  | m :: l' => insert_by_created_at m (order_by_created_at l')
  end.

(** [db.query(Message).filter(Message.session_id == session_id)
       .order_by(Message.created_at).all()]. *)
Definition query_messages (w : World) (session_id : Z) : list Message :=
  order_by_created_at
    (filter (λ m, msg_session_id m = session_id) (messages w)).

(** [db.query(ChatSession).filter(ChatSession.id == session_id,
       ChatSession.user_id == current_user.id).first()]. *)
Definition query_session (w : World) (session_id : Z) (current_user : User)
  : option ChatSession :=
  match sessions w !! session_id with
  | Some s =>
      if bool_decide (cs_user_id s = user_id current_user) then Some s else None
  | None => None
  end.

(** Modelled from the spec: [models.py], which declares the defaults of the
    [Message] columns, is absent.  The creation timestamp "defines total
    order within the session", so the row inserted by
    [db.add(m); db.commit(); db.refresh(m)] takes the next primary key and
    the reading of a clock that advances with every reading. *)
Definition db_add_message (session_id : Z) (role content : string)
    (image_path : option string) (w : World) : Message * World :=
  let m := mkMessage (next_message_id w) session_id role content image_path
             (clock w) in
  (m, mkWorld (sessions w) (messages w ++ [m]) (next_message_id w + 1)
        (clock w + 1) (fs w)).

(** [datetime.utcnow()] on the same clock. *)
Definition utcnow (w : World) : Z * World :=
  (clock w,
   mkWorld (sessions w) (messages w) (next_message_id w) (clock w + 1) (fs w)).

(** Modelled from the spec: the relationship between [ChatSession] and
    [Message] in the absent [models.py] is a "cascading delete of Messages";
    [db.delete(session); db.commit()] removes the row and the messages that
    refer to it. *)
Definition db_delete_session (session_id : Z) (w : World) : World :=
  mkWorld (delete session_id (sessions w))
    (filter (λ m, msg_session_id m ≠ session_id) (messages w))
    (next_message_id w) (clock w) (fs w).

(** ** Session Orchestrator ([main.py]) *)

Definition not_found : exn := HTTPException 404 "Session not found".

(** [GET /api/chat/sessions/{session_id}/messages]. *)
Definition get_session_messages (session_id : Z) (current_user : User)
    (w : World) : result (list Message) :=
  match query_session w session_id current_user with
  | None => Raise not_found
  | Some _ => Return (query_messages w session_id)
  end.

(** Lines 179-182 of [send_message]:
    [image_path = None; if image: image_path = await save_uploaded_image(...)]. *)
Definition handle_image_upload (uuid4 : string) (env : Env)
    (image : option UploadFile) (user_id session_id : Z) (w : World)
  : result (option string) * World :=
  match image with
  | Some image =>
      match save_uploaded_image uuid4 env image user_id session_id
              (fs w) with
      | (Return p, fs') =>
          (Return (Some p),
           mkWorld (sessions w) (messages w) (next_message_id w) (clock w) fs')
      | (Raise e, fs') =>
          (Raise e,
           mkWorld (sessions w) (messages w) (next_message_id w) (clock w) fs')
      end
  | None => (Return None, w)
  end.

Section Orchestrator.
Variable Image : Type.
Variable Image_open : list Byte.byte → option Image.

(** [POST /api/chat/sessions/{session_id}/messages].  [uuid4] and [env] are
    those of [save_uploaded_image]; [llm] is the hosted model during this
    request. *)
Definition send_message (uuid4 : string) (env : Env)
    (llm : Provider Image) (session_id : Z) (text : string)
    (image : option UploadFile) (current_user : User) (w : World)
  : result Message * World :=
  match query_session w session_id current_user with
  | None => (Raise not_found, w)
  | Some session =>
      let '(saved, w) := handle_image_upload uuid4 env image
                           (user_id current_user) session_id w in
      match saved with
      | Raise e => (Raise e, w)
      | Return image_path =>
          (* Save user message *)
          let '(user_message, w) :=
            db_add_message session_id "user" text image_path w in
          (* Get chat history for context *)
          let previous_messages := query_messages w session_id in
          (* Process with LLM *)
          match process_chat_message Image_open llm (fs w) text image_path
                  (Some previous_messages) with
          | Raise e =>
              (Raise (HTTPException 500
                        ("LLM processing error: " +:+ str_exn e)), w)
          | Return assistant_response =>
              (* Save assistant message; update session timestamp *)
              let '(now, w) := utcnow w in
              let session := mkChatSession (cs_user_id session)
                               (cs_title session) (cs_created_at session) now in
              let w := mkWorld (<[session_id := session]> (sessions w))
                         (messages w) (next_message_id w) (clock w) (fs w) in
              let '(assistant_message, w) :=
                db_add_message session_id "assistant" assistant_response
                  None w in
              (Return assistant_message, w)
          end
      end
  end.
End Orchestrator.

Arguments send_message {Image} Image_open uuid4 env llm session_id
  text image current_user w.

(** [DELETE /api/chat/sessions/{session_id}]. *)
Definition delete_chat_session (session_id : Z) (current_user : User)
    (w : World) : result string * World :=
  match query_session w session_id current_user with
  | None => (Raise not_found, w)
  | Some session =>
      (Return "Session deleted successfully", db_delete_session session_id w)
  end.

(** ** The ordering invariant of the store *)

Definition created_before (a b : Message) : Prop :=
  msg_created_at a < msg_created_at b.

(** Rows were inserted at strictly increasing readings of the clock, and
    every stored timestamp is a past reading. *)
Definition store_ok (w : World) : Prop :=
  StronglySorted created_before (messages w)
  ∧ Forall (λ m, msg_created_at m < clock w) (messages w)
  ∧ map_Forall (λ _ s, cs_updated_at s < clock w) (sessions w).

(** ** Concrete collaborators and states, for evaluation *)

Module Demo.
(** A decoder that accepts every non-empty file and returns its bytes. *)
Definition Image : Type := list Byte.byte.
Definition Image_open (b : list Byte.byte) : option Image :=
  match b with
  | [] => None
  | _ :: _ => Some b
  end.

Definition alice : User := mkUser 1 "alice@example.org" "alice".
Definition bob : User := mkUser 2 "bob@example.org" "bob".

(** Session 1 belongs to alice, session 2 to bob; no message yet. *)
Definition w0 : World :=
  mkWorld (<[1 := mkChatSession 1 "Chat A" 0 0]>
             (<[2 := mkChatSession 2 "Chat B" 1 1]> ∅))
    [] 1 2 ∅.

Definition llm_ok : Provider Image :=
  λ _ _, ProviderResponse (Return "Hello!").
Definition llm_down : Provider Image :=
  λ _ _, ProviderRaises (PyException "DeadlineExceeded" "504 Deadline Exceeded").
Definition llm_blocked : Provider Image :=
  λ _ _, ProviderResponse
           (Raise (PyException "ValueError"
                     "The `response.text` quick accessor only works when the response contains a valid `Part`, but none was returned.")).
(** A response whose text is empty. *)
Definition llm_empty : Provider Image := λ _ _, ProviderResponse (Return "").

(** A process whose set order is the one below, on a disk that works. *)
Definition env_ok : Env :=
  mkEnv [".png"; ".jpeg"; ".webp"; ".jpg"; ".gif"] None.

(** The same process on a disk that is full: [open] creates the file and
    the write fails before a byte is stored. *)
Definition env_full : Env :=
  mkEnv [".png"; ".jpeg"; ".webp"; ".jpg"; ".gif"]
    (Some (WriteFails
             (PyException "OSError" "[Errno 28] No space left on device") [])).

Definition png : UploadFile := mkUploadFile "cat.PNG" ["x"%byte; "y"%byte].
Definition exe : UploadFile := mkUploadFile "setup.exe" ["M"%byte; "Z"%byte].

(** alice sends a text with an image to session 1 and gets a reply. *)
Definition w1 : World :=
  snd (send_message Image_open "3f2a" env_ok llm_ok 1 "look at my cat"
         (Some png) alice w0).

(** bob has deleted his session. *)
Definition w2 : World := snd (delete_chat_session 2 bob w0).

Definition u1 : Message := mkMessage 1 1 "user" "hi" None 10.
Definition a1 : Message := mkMessage 2 1 "assistant" "hello" None 11.
Definition u2 : Message :=
  mkMessage 3 1 "user" "see this" (Some "uploads/1/1/3f2a.png") 12.
Definition u3 : Message := mkMessage 4 1 "user" "and now?" None 13.
Definition s1 : Message := mkMessage 5 1 "system" "be brief" None 9.
End Demo.

(** ** The remaining functions of [file_handler.py] and [main.py] *)

(** [s.replace(old, new)] for a non-empty [old]: occurrences are replaced
    from left to right and do not overlap.  [skip] counts the characters of
    a matched occurrence that are still to be passed over. *)
Fixpoint replace_go (old new : string) (skip : nat) (s : string) : string :=
  match s with
  | EmptyString => EmptyString
  | String c s' =>
      match skip with
      | S k => replace_go old new k s'
      | O =>
          if String.prefix old s
          then new +:+ replace_go old new (String.length old - 1) s'
          else String c (replace_go old new 0 s')
      end
  end.

Definition str_replace (old new s : string) : string := replace_go old new 0 s.

(** [old in s]. *)
Fixpoint contains (old s : string) : bool :=
  match s with
  | EmptyString => String.prefix old s
  | String _ s' => String.prefix old s || contains old s'
  end.

(** [get_image_url(image_path)]. *)
Definition get_image_url (image_path : string) : string :=
  "/api/images/" +:+ str_replace (UPLOAD_DIR +:+ "/") "" image_path.

(** [ORDER BY updated_at DESC] as a stable insertion sort on the rows with
    their primary keys. *)
Fixpoint insert_by_updated_at_desc (x : Z * ChatSession)
    (l : list (Z * ChatSession)) : list (Z * ChatSession) :=
  match l with
  | [] => [x]
  | y :: l' =>
      if cs_updated_at (snd y) <=? cs_updated_at (snd x) then x :: y :: l'
      else y :: insert_by_updated_at_desc x l'
  end.

Fixpoint order_by_updated_at_desc (l : list (Z * ChatSession))
  : list (Z * ChatSession) :=
  match l with
  | [] => []
  | x :: l' => insert_by_updated_at_desc x (order_by_updated_at_desc l')
  end.

(** [GET /api/chat/sessions]: the caller's sessions, most recently updated
    first. *)
Definition get_chat_sessions (current_user : User) (w : World)
  : list (Z * ChatSession) :=
  order_by_updated_at_desc
    (filter (λ kv, cs_user_id (snd kv) = user_id current_user)
       (map_to_list (sessions w))).

(** [POST /api/chat/sessions].  [new_id] is the primary key the database
    gives the new row (not the key of an existing row), [now_str] the value
    of [datetime.now().strftime('%Y-%m-%d %H:%M')] in this call.

    Modelled from the spec: the defaults of the timestamp columns are
    declared in the absent [models.py]; both are taken from the clock of
    [db_add_message] when the row is inserted. *)
Definition create_chat_session (new_id : Z) (now_str : string)
    (title : option string) (current_user : User) (w : World)
  : (Z * ChatSession) * World :=
  let session :=
    mkChatSession (user_id current_user)
      (if truthy_str title then default "" title else "Chat " +:+ now_str)
      (clock w) (clock w) in
  ((new_id, session),
   mkWorld (<[new_id := session]> (sessions w)) (messages w)
     (next_message_id w) (clock w + 1) (fs w)).

(** *** Accounts ([register], [login], [get_current_user]) *)

(** A row of the [users] table: the columns [main.py] writes. *)
Record UserRow : Type := mkUserRow {
  row_user : User;
  row_hashed_password : string
}.

(** The [users] table in insertion order and its next primary key. *)
Record Accounts : Type := mkAccounts {
  users : list UserRow;
  next_user_id : Z
}.

(** [schemas.UserCreate] and [schemas.UserLogin]. *)
Record UserCreate : Type := mkUserCreate {
  uc_email : string;
  uc_username : string;
  uc_password : string
}.

Record UserLogin : Type := mkUserLogin {
  ul_email : string;
  ul_password : string
}.

(** [schemas.TokenResponse]. *)
Record TokenResponse : Type := mkTokenResponse {
  access_token : string;
  token_type : string;
  token_user : User
}.

(** [db.query(User).filter(User.email == email).first()]. *)
Definition query_user_by_email (a : Accounts) (email : string)
  : option UserRow :=
  List.find (λ r, bool_decide (user_email (row_user r) = email)) (users a).

(** [db.query(User).filter(User.id == user_id).first()]; the comparison with
    [None] selects no row. *)
Definition query_user_by_id (a : Accounts) (uid : option Z) : option UserRow :=
  match uid with
  | Some i => List.find (λ r, bool_decide (user_id (row_user r) = i)) (users a)
  | None => None
  end.

Section Auth.
(** The functions of [auth.py], which is not among the sources, as they
    behave during one request: a hash may be salted and a token may carry
    its time of issue, so another request need not get the same value for
    the same arguments, and statements about two requests take the
    functions of each.  [verify_password plain hashed];
    [create_access_token sub user_id] for the payload
    [{"sub": sub, "user_id": user_id}]; [verify_token token] gives the
    ["user_id"] entry of the payload ([Some None] when the payload has
    none), or [None] for a token it rejects. *)
Variable get_password_hash : string → string.
Variable verify_password : string → string → bool.
Variable create_access_token : string → Z → string.
Variable verify_token : string → option (option Z).

(** [POST /api/auth/register].  The check on the e-mail address is the one
    [main.py] makes; uniqueness constraints that the absent [models.py] may
    declare on other columns are not part of this embedding. *)
Definition register (user_data : UserCreate) (a : Accounts)
  : result TokenResponse * Accounts :=
  match query_user_by_email a (uc_email user_data) with
  | Some existing_user =>
      (Raise (HTTPException 400 "Email already registered"), a)
  | None =>
      let hashed_password := get_password_hash (uc_password user_data) in
      let new_user :=
        mkUser (next_user_id a) (uc_email user_data) (uc_username user_data) in
      let a := mkAccounts (users a ++ [mkUserRow new_user hashed_password])
                 (next_user_id a + 1) in
      let access_token :=
        create_access_token (user_email new_user) (user_id new_user) in
      (Return (mkTokenResponse access_token "bearer" new_user), a)
  end.

(** [POST /api/auth/login]. *)
Definition login (user_data : UserLogin) (a : Accounts)
  : result TokenResponse :=
  match query_user_by_email a (ul_email user_data) with
  | None => Raise (HTTPException 401 "Invalid credentials")
  | Some user =>
      if negb (verify_password (ul_password user_data)
                 (row_hashed_password user))
      then Raise (HTTPException 401 "Invalid credentials")
      else
        let access_token :=
          create_access_token (user_email (row_user user))
            (user_id (row_user user)) in
        Return (mkTokenResponse access_token "bearer" (row_user user))
  end.

(** [get_current_user(credentials, db)] on the bearer token. *)
Definition get_current_user (token : string) (a : Accounts) : result User :=
  match verify_token token with
  | None => Raise (HTTPException 401 "Invalid authentication credentials")
  | Some payload_user_id =>
      match query_user_by_id a payload_user_id with
      | None => Raise (HTTPException 401 "User not found")
      | Some user => Return (row_user user)
      end
  end.
End Auth.

(** [c in s] for a character. *)
Fixpoint has_char (c : ascii) (s : string) : bool :=
  match s with
  | EmptyString => false
  | String a s' => Ascii.eqb a c || has_char c s'
  end.

(** *** Further invariants of the store *)

(** Primary keys of messages are below the next key and pairwise distinct. *)
Definition ids_ok (w : World) : Prop :=
  Forall (λ m, msg_id m < next_message_id w) (messages w)
  ∧ NoDup (map msg_id (messages w)).

(** Every message belongs to a session of the store. *)
Definition refs_ok (w : World) : Prop :=
  Forall (λ m, is_Some (sessions w !! msg_session_id m)) (messages w).

(** E-mail addresses and primary keys of users are pairwise distinct. *)
Definition accounts_ok (a : Accounts) : Prop :=
  NoDup (map (λ r, user_email (row_user r)) (users a))
  ∧ Forall (λ r, user_id (row_user r) < next_user_id a) (users a)
  ∧ NoDup (map (λ r, user_id (row_user r)) (users a)).

(** Concrete collaborators for the accounts. *)
Module DemoAuth.
Definition get_password_hash (p : string) : string := "h$" +:+ p.
Definition verify_password (plain hashed : string) : bool :=
  bool_decide (hashed = "h$" +:+ plain).
Definition create_access_token (sub : string) (uid : Z) : string :=
  pretty uid +:+ ":" +:+ sub.
(** The issuer of a later request: its tokens differ from those above. *)
Definition issue_later (sub : string) (uid : Z) : string :=
  "t2:" +:+ pretty uid +:+ ":" +:+ sub.
(** Accepts the two tokens used below. *)
Definition verify_token (token : string) : option (option Z) :=
  if bool_decide (token = "1:alice@example.org") then Some (Some 1)
  else if bool_decide (token = "nobody") then Some None
  else None.

Definition a0 : Accounts := mkAccounts [] 1.
Definition alice_data : UserCreate :=
  mkUserCreate "alice@example.org" "alice" "s3cret".
Definition a1 : Accounts :=
  snd (register get_password_hash create_access_token alice_data a0).
End DemoAuth.

(** * Properties *)

(** ** Lists and slices *)

Lemma slice_to_minus_1_snoc {A} (h : list A) (x : A) :
  slice_to_minus_1 (h ++ [x]) = h.
Proof.
  unfold slice_to_minus_1. rewrite length_app. simpl.
  replace (length h + 1 - 1)%nat with (length h) by lia.
  by rewrite take_app_length.
Qed.

Lemma slice_to_minus_1_length {A} (l : list A) :
  length (slice_to_minus_1 l) = (length l - 1)%nat.
Proof. unfold slice_to_minus_1. rewrite length_take. lia. Qed.

(** A loop that appends one element per iteration computes a [map]. *)
Lemma fold_left_snoc_map {A B} (f : A → B) (l : list A) (acc : list B) :
  fold_left (λ acc x, acc ++ [f x]) l acc = acc ++ map f l.
Proof.
  revert acc. induction l as [|x l IH]; intros acc; simpl.
  - by rewrite app_nil_r.
  - rewrite IH. by rewrite <- app_assoc.
Qed.

(** ** Context Builder *)

Section ContextBuilder.
Context {Image : Type} (Image_open : list Byte.byte → option Image).
Implicit Types (fs : FS) (h : list Message) (m : Message).

Lemma build_message_history_map fs (chat_history : list Message) :
  build_message_history Image_open fs chat_history
  = map (message_turn Image_open fs) (slice_to_minus_1 chat_history).
Proof. unfold build_message_history. by rewrite fold_left_snoc_map. Qed.

Lemma build_message_history_snoc fs h (newest : Message) :
  build_message_history Image_open fs (h ++ [newest])
  = map (message_turn Image_open fs) h.
Proof. by rewrite build_message_history_map, slice_to_minus_1_snoc. Qed.

Lemma build_message_history_lookup fs h (newest : Message) (i : nat) m :
  h !! i = Some m →
  build_message_history Image_open fs (h ++ [newest]) !! i
  = Some (message_turn Image_open fs m).
Proof.
  intros Hi. rewrite build_message_history_snoc, list_lookup_fmap.
  by rewrite Hi.
Qed.

Lemma history_of_Some fs (chat_history : list Message) :
  history_of Image_open fs (Some chat_history)
  = build_message_history Image_open fs chat_history.
Proof. destruct chat_history; reflexivity. Qed.

Lemma message_turn_role fs m :
  role (message_turn Image_open fs m)
  = if bool_decide (msg_role m = "assistant") then "model" else "user".
Proof. reflexivity. Qed.

(** The roles of the turns are a function of the persisted roles alone. *)
Lemma build_message_history_roles fs (chat_history : list Message) :
  map role (build_message_history Image_open fs chat_history)
  = map (λ r : string,
           if bool_decide (r = "assistant") then "model" else "user")
      (slice_to_minus_1 (map msg_role chat_history)).
Proof.
  rewrite build_message_history_map. unfold slice_to_minus_1.
  rewrite length_map, firstn_map, !map_map. reflexivity.
Qed.

(** The parts of a turn: text only, or image then text. *)
Lemma message_turn_parts fs m :
  parts (message_turn Image_open fs m) = [TextPart (msg_content m)]
  ∨ ∃ image, parts (message_turn Image_open fs m)
             = [ImagePart image; TextPart (msg_content m)].
Proof.
  unfold message_turn; simpl.
  destruct (truthy_str _ && os_path_exists _ _); [|by left].
  destruct (load_image _ _ _); [right; eauto | by left].
Qed.
End ContextBuilder.

Section ContextBuilderClaims.
Context {Image : Type} (Image_open : list Byte.byte → option Image).
Implicit Types (fs : FS) (h : list Message) (m : Message).

(** C1.  When the Context Builder is given the history [h] followed by the
    newest message, it produces one turn per message of [h], in the order
    of [h]; the result has the length of [h] and does not depend on the
    newest message at all, so that message is not among the history turns
    (the dispatcher receives it as the current parts).  For three prior
    messages with roles user, assistant, user and a fourth, newest one,
    exactly three turns with roles user, model, user are produced.  An
    empty or absent history gives the empty sequence. *)
Theorem build_message_history_excludes_newest fs h (newest : Message) :
  let turns := build_message_history Image_open fs (h ++ [newest]) in
  turns = map (message_turn Image_open fs) h
  ∧ length turns = length h
  ∧ (∀ other : Message,
       build_message_history Image_open fs (h ++ [other]) = turns)
  ∧ history_of Image_open fs (Some (h ++ [newest])) = turns
  ∧ (∀ u1 a1 u2 u3 : Message,
       map msg_role [u1; a1; u2] = ["user"; "assistant"; "user"] →
       map role (build_message_history Image_open fs [u1; a1; u2; u3])
       = ["user"; "model"; "user"])
  ∧ build_message_history Image_open fs [] = []
  ∧ history_of Image_open fs (Some []) = []
  ∧ history_of Image_open fs None = [].
Proof.
  intros turns. subst turns.
  rewrite !build_message_history_snoc.
  split_and!; try reflexivity.
  - by rewrite length_map.
  - intros other. by rewrite build_message_history_snoc.
  - by rewrite history_of_Some, build_message_history_snoc.
  - intros u1 a1 u2 u3 Hroles.
    change [u1; a1; u2; u3] with ([u1; a1; u2] ++ [u3]).
    rewrite build_message_history_snoc.
    injection Hroles as H1 H2 H3.
    cbn [map]. rewrite !message_turn_role, H1, H2, H3. reflexivity.
Qed.

(** C8.  The turn built for a message has role "model" exactly when the
    persisted role is "assistant", and role "user" when the persisted role
    is "user".  The mapping is fixed: whatever the decoder, the files and
    the other fields of the messages, equal persisted roles give equal
    turn roles. *)
Theorem role_mapping_fixed fs h (newest : Message) (i : nat) m (t : Turn Image) :
  h !! i = Some m →
  build_message_history Image_open fs (h ++ [newest]) !! i = Some t →
  (role t = "model" ↔ msg_role m = "assistant")
  ∧ (msg_role m = "user" → role t = "user")
  ∧ (∀ (Image' : Type) (Image_open' : list Byte.byte → option Image')
       (fs' : FS) (l l' : list Message),
       map msg_role l = map msg_role l' →
       map role (build_message_history Image_open fs l)
       = map role (build_message_history Image_open' fs' l')).
Proof.
  intros Hm Ht.
  rewrite (build_message_history_lookup _ _ _ _ _ _ Hm) in Ht.
  injection Ht as <-. rewrite message_turn_role.
  split_and!.
  - case_bool_decide; split; try done.
  - intros Hu. rewrite Hu. reflexivity.
  - intros Image' Image_open' fs' l l' Hroles.
    by rewrite !build_message_history_roles, Hroles.
Qed.

(** C10.  A history message whose persisted role is anything but
    "assistant" - "user" or any other string - still gets its turn, tagged
    "user"; the number of turns is the number of history messages. *)
Theorem other_roles_become_user fs h (newest : Message) (i : nat) m :
  h !! i = Some m →
  msg_role m ≠ "assistant" →
  (∃ t : Turn Image,
     build_message_history Image_open fs (h ++ [newest]) !! i = Some t
     ∧ role t = "user"
     ∧ last (parts t) = Some (TextPart (msg_content m)))
  ∧ length (build_message_history Image_open fs (h ++ [newest])) = length h.
Proof.
  intros Hm Hrole. split.
  - exists (message_turn Image_open fs m). split_and!.
    + by apply build_message_history_lookup.
    + rewrite message_turn_role. by rewrite bool_decide_eq_false_2.
    + destruct (message_turn_parts Image_open fs m) as [-> | [image ->]];
        reflexivity.
  - by rewrite build_message_history_snoc, length_map.
Qed.
End ContextBuilderClaims.

(** ** Image parts *)

Section ImageParts.
Context {Image : Type} (Image_open : list Byte.byte → option Image).
Implicit Types (fs : FS) (m : Message).




End ImageParts.

(** ** Turn Dispatcher *)

Section Dispatcher.
Context {Image : Type} (Image_open : list Byte.byte → option Image).

(** The dispatcher returns what the provider answers to the history turns
    and the current parts, and nothing else. *)
Lemma process_chat_message_outcome (llm : Provider Image) (fs : FS)
    (text : string) (image_path : option string)
    (chat_history : option (list Message)) :
  process_chat_message Image_open llm fs text image_path chat_history
  = match llm (history_of Image_open fs chat_history)
            (current_parts_of Image_open fs text image_path) with
    | ProviderResponse (Return t) => Return t
    | ProviderResponse (Raise cause) => Raise (provider_error cause)
    | ProviderRaises e => Raise (provider_error e)
    end.
Proof.
  unfold process_chat_message.
  destruct (llm _ _) as [e | [t|cause]]; reflexivity.
Qed.

Lemma process_chat_message_return (llm : Provider Image) (fs : FS)
    (text : string) (image_path : option string)
    (chat_history : option (list Message)) (t : string) :
  process_chat_message Image_open llm fs text image_path chat_history
  = Return t →
  llm (history_of Image_open fs chat_history)
      (current_parts_of Image_open fs text image_path)
  = ProviderResponse (Return t).
Proof.
  rewrite process_chat_message_outcome.
  destruct (llm _ _) as [e | [t'|cause]]; congruence.
Qed.

Lemma process_chat_message_raise (llm : Provider Image) (fs : FS)
    (text : string) (image_path : option string)
    (chat_history : option (list Message)) (e : exn) :
  process_chat_message Image_open llm fs text image_path chat_history
  = Raise e →
  ∃ cause, e = provider_error cause.
Proof.
  rewrite process_chat_message_outcome.
  destruct (llm _ _) as [e' | [t'|cause]]; intros [= <-]; eauto.
Qed.

(** C9 (amended).  The reply of a dispatch is the text that the accessor
    [response.text] gives for the provider's response, whatever that text
    is.  When the accessor raises, as it does for a response without text,
    or when the call to the provider raises, the dispatch fails with the
    provider error that carries the cause.  The dispatcher returns nothing
    else and raises nothing else: never the provider's own exception. *)
Theorem dispatch_reply_or_provider_error (llm : Provider Image) (fs : FS)
    (text : string) (image_path : option string)
    (chat_history : option (list Message)) :
  let outcome := llm (history_of Image_open fs chat_history)
                     (current_parts_of Image_open fs text image_path) in
  let reply := process_chat_message Image_open llm fs text image_path
                 chat_history in
  (∀ t, outcome = ProviderResponse (Return t) → reply = Return t)
  ∧ (∀ cause, outcome = ProviderResponse (Raise cause) →
       reply = Raise (provider_error cause))
  ∧ (∀ e, outcome = ProviderRaises e → reply = Raise (provider_error e))
  ∧ (∀ t, reply = Return t → outcome = ProviderResponse (Return t))
  ∧ (∀ e, reply = Raise e →
       ∃ cause, e = provider_error cause
                ∧ (outcome = ProviderRaises cause
                   ∨ outcome = ProviderResponse (Raise cause))).
Proof.
  intros outcome reply. subst reply.
  rewrite process_chat_message_outcome. fold outcome.
  split_and!.
  - by intros t ->.
  - by intros cause ->.
  - by intros e ->.
  - intros t. destruct outcome as [e | [t'|cause]]; congruence.
  - intros e. destruct outcome as [e' | [t'|cause]]; intros [= <-]; eauto.
Qed.
End Dispatcher.

(** ** Session/Message store *)

Section Store.
Implicit Types (w : World) (m : Message) (l : list Message).

Lemma insert_by_created_at_first m l :
  Forall (created_before m) l → insert_by_created_at m l = m :: l.
Proof.
  destruct l as [|x l]; [done|]. intros H. inversion H as [|? ? Hx _]; subst.
  unfold created_before in Hx. simpl.
  destruct (Z.leb_spec (msg_created_at m) (msg_created_at x)); [done | lia].
Qed.

(** On rows already in creation order, [ORDER BY created_at] is the
    identity. *)
Lemma order_by_created_at_sorted l :
  StronglySorted created_before l → order_by_created_at l = l.
Proof.
  induction 1 as [|m l Hl IH Hm]; simpl; [done|].
  rewrite IH. by apply insert_by_created_at_first.
Qed.

Lemma StronglySorted_filter {A} (R : relation A) (P : A → Prop)
    `{!∀ x, Decision (P x)} (l : list A) :
  StronglySorted R l → StronglySorted R (filter P l).
Proof.
  induction 1 as [|x l Hl IH Hx]; [constructor|].
  rewrite filter_cons. case_decide; [|done].
  constructor; [done|]. rewrite Forall_forall in *.
  intros y Hy. apply Hx. apply list_elem_of_filter in Hy. tauto.
Qed.

Lemma query_messages_sorted w (session_id : Z) :
  store_ok w →
  query_messages w session_id
  = filter (λ m, msg_session_id m = session_id) (messages w).
Proof.
  intros (Hs & _ & _). unfold query_messages.
  apply order_by_created_at_sorted. by apply StronglySorted_filter.
Qed.

Lemma StronglySorted_snoc_clock l m (t : Z) :
  StronglySorted created_before l →
  Forall (λ x, msg_created_at x < t) l →
  msg_created_at m = t →
  StronglySorted created_before (l ++ [m]).
Proof.
  intros Hs Hc Hm. apply StronglySorted_app_2; [|done|].
  - intros x1 x2 H1 H2. apply list_elem_of_singleton in H2 as ->.
    rewrite Forall_forall in Hc. unfold created_before. rewrite Hm. eauto.
  - repeat constructor.
Qed.

Lemma store_ok_db_add_message (session_id : Z) (role content : string)
    (image_path : option string) w :
  store_ok w →
  store_ok (snd (db_add_message session_id role content image_path w)).
Proof.
  intros (Hs & Hc & Hu). unfold store_ok; simpl. split_and!.
  - by eapply StronglySorted_snoc_clock.
  - apply Forall_app. split.
    + eapply Forall_impl; [done|]. simpl. lia.
    + repeat constructor. simpl. lia.
  - eapply map_Forall_impl; [done|]. simpl. lia.
Qed.

Lemma store_ok_utcnow w : store_ok w → store_ok (snd (utcnow w)).
Proof.
  intros (Hs & Hc & Hu). unfold store_ok; simpl. split_and!; [done|..].
  - eapply Forall_impl; [done|]. simpl. lia.
  - eapply map_Forall_impl; [done|]. simpl. lia.
Qed.

(** After an insertion, the log of the session read back in creation order
    is the old log followed by the new row; other logs are unchanged. *)
Lemma query_messages_db_add_message (session_id : Z) (role content : string)
    (image_path : option string) w (sid : Z) :
  store_ok w →
  query_messages (snd (db_add_message session_id role content image_path w))
    sid
  = query_messages w sid
    ++ (if bool_decide (session_id = sid)
        then [fst (db_add_message session_id role content image_path w)]
        else []).
Proof.
  intros Hok.
  rewrite (query_messages_sorted _ _
             (store_ok_db_add_message session_id role content image_path _ Hok)).
  rewrite (query_messages_sorted _ _ Hok). simpl.
  rewrite filter_app. f_equal.
  rewrite filter_cons, filter_nil. simpl.
  case_decide; case_bool_decide; done.
Qed.

Lemma store_ok_db_delete_session (session_id : Z) w :
  store_ok w → store_ok (db_delete_session session_id w).
Proof.
  intros (Hs & Hc & Hu). unfold store_ok; simpl. split_and!.
  - by apply StronglySorted_filter.
  - rewrite Forall_forall in *. intros m Hm.
    apply list_elem_of_filter in Hm. apply Hc. tauto.
  - by apply map_Forall_delete.
Qed.
End Store.

(** ** Session Orchestrator *)

Section OrchestratorLemmas.
Implicit Types (w : World) (u : User).

Lemma query_session_None w (session_id : Z) u :
  sessions w !! session_id = None
  ∨ (∃ s, sessions w !! session_id = Some s ∧ cs_user_id s ≠ user_id u) →
  query_session w session_id u = None.
Proof.
  unfold query_session. intros [-> | (s & -> & Hs)]; [done|].
  by rewrite bool_decide_eq_false_2.
Qed.

Lemma query_session_Some w (session_id : Z) u s :
  query_session w session_id u = Some s →
  sessions w !! session_id = Some s ∧ cs_user_id s = user_id u.
Proof.
  unfold query_session. destruct (sessions w !! session_id) as [s'|]; [|done].
  case_bool_decide; [|done]. by intros [= ->].
Qed.

(** The session query reads the [chat_sessions] table only. *)
Lemma query_session_ext w w' (session_id : Z) u :
  sessions w' = sessions w →
  query_session w' session_id u = query_session w session_id u.
Proof. unfold query_session. by intros ->. Qed.

Lemma query_messages_ext w w' (session_id : Z) :
  messages w' = messages w →
  query_messages w' session_id = query_messages w session_id.
Proof. unfold query_messages. by intros ->. Qed.

(** A rejected or failed upload leaves at most the file that [open] had
    created. *)
Lemma save_uploaded_image_raise (uuid4 : string) (env : Env)
    (f : UploadFile) (uid sid : Z) (fs0 : FS) e fs' :
  save_uploaded_image uuid4 env f uid sid fs0 = (Raise e, fs') →
  fs' = fs0
  ∨ ∃ cause written,
      disk_fault env = Some (WriteFails cause written)
      ∧ fs' = <[UPLOAD_DIR // pretty uid // pretty sid
                  // (uuid4 +:+ lower (Path.suffix (filename f)))
                := written]> fs0.
Proof.
  unfold save_uploaded_image.
  repeat case_bool_decide; try (left; congruence).
  destruct (disk_fault env) as [[e1|e1|e1 written]|];
    intros [= <- <-]; eauto.
Qed.

Lemma save_uploaded_image_invalid (uuid4 : string) (env : Env)
    (f : UploadFile) (uid sid : Z) (fs0 : FS) :
  lower (Path.suffix (filename f)) ∉ ALLOWED_EXTENSIONS
  ∨ Z.of_nat (length (content f)) > MAX_FILE_SIZE →
  ∃ detail,
    save_uploaded_image uuid4 env f uid sid fs0
    = (Raise (HTTPException 400 detail), fs0).
Proof.
  unfold save_uploaded_image. intros Hbad.
  case_bool_decide; [eauto|]. case_bool_decide; [eauto|].
  destruct Hbad; done.
Qed.

Lemma handle_image_upload_raise (uuid4 : string) (env : Env)
    (image : option UploadFile) (uid sid : Z) w e w' :
  handle_image_upload uuid4 env image uid sid w = (Raise e, w') →
  sessions w' = sessions w ∧ messages w' = messages w
  ∧ next_message_id w' = next_message_id w ∧ clock w' = clock w
  ∧ (w' = w
     ∨ ∃ f cause written,
         image = Some f
         ∧ disk_fault env = Some (WriteFails cause written)
         ∧ fs w' = <[UPLOAD_DIR // pretty uid // pretty sid
                       // (uuid4 +:+ lower (Path.suffix (filename f)))
                     := written]> (fs w)).
Proof.
  unfold handle_image_upload. destruct image as [f|]; [|done].
  destruct (save_uploaded_image _ _ _ _ _ _) as [[p|e'] fs'] eqn:E; [done|].
  intros [= -> <-]. cbn. split_and!; try done.
  apply save_uploaded_image_raise in E as [-> | (cause & written & Hd & ->)].
  - left. by destruct w.
  - right. by exists f, cause, written.
Qed.

(** A stored upload touches the upload directory only. *)
Lemma handle_image_upload_return (uuid4 : string) (env : Env)
    (image : option UploadFile) (uid sid : Z) w image_path w' :
  handle_image_upload uuid4 env image uid sid w
  = (Return image_path, w') →
  sessions w' = sessions w ∧ messages w' = messages w
  ∧ next_message_id w' = next_message_id w ∧ clock w' = clock w
  ∧ (image = None → image_path = None ∧ w' = w)
  ∧ (∀ f, image = Some f →
       ∃ p, image_path = Some p ∧ fs w' = <[p := content f]> (fs w)).
Proof.
  unfold handle_image_upload. destruct image as [f|].
  - destruct (save_uploaded_image _ _ _ _ _ _) as [[p|e'] fs'] eqn:E; [|done].
    intros [= <- <-]. simpl. split_and!; try done.
    intros f' [= <-]. exists p. split; [done|].
    unfold save_uploaded_image in E.
    repeat case_bool_decide; try done.
    destruct (disk_fault env) as [[e1|e1|e1 written]|]; try done.
    by injection E as <- <-.
  - intros [= <- <-]. split_and!; try done.
Qed.

Lemma store_ok_fs_irrelevant w w' :
  sessions w' = sessions w → messages w' = messages w →
  clock w' = clock w →
  store_ok w → store_ok w'.
Proof. unfold store_ok. by intros -> -> ->. Qed.
End OrchestratorLemmas.

Section OrchestratorClaims.
Context {Image : Type} (Image_open : list Byte.byte → option Image).
Implicit Types (w : World) (u : User) (llm : Provider Image).

(** C4.  For a caller and a session id, take a state in which no session
    has that id and a state in which the session exists but belongs to
    another user.  [send_message], the listing of messages and the deletion
    of the session raise the same not-found error in both states, whatever
    else the request carries, and leave the state as it was. *)
Theorem foreign_session_is_not_found (uuid4 : string) (env : Env)
    llm (session_id : Z) (text : string) (image : option UploadFile) u
    (w_missing w_foreign : World) (s : ChatSession) :
  sessions w_missing !! session_id = None →
  sessions w_foreign !! session_id = Some s →
  cs_user_id s ≠ user_id u →
  send_message Image_open uuid4 env llm session_id text image u
    w_missing = (Raise not_found, w_missing)
  ∧ send_message Image_open uuid4 env llm session_id text image u
      w_foreign = (Raise not_found, w_foreign)
  ∧ get_session_messages session_id u w_missing = Raise not_found
  ∧ get_session_messages session_id u w_foreign = Raise not_found
  ∧ delete_chat_session session_id u w_missing = (Raise not_found, w_missing)
  ∧ delete_chat_session session_id u w_foreign = (Raise not_found, w_foreign).
Proof.
  intros Hmiss Hfor Hown.
  assert (query_session w_missing session_id u = None) as H1
    by (apply query_session_None; eauto).
  assert (query_session w_foreign session_id u = None) as H2
    by (apply query_session_None; eauto).
  unfold send_message, get_session_messages, delete_chat_session.
  by rewrite H1, H2.
Qed.

(** C2.  Take a request that reaches the model: the session is the
    caller's and the upload, if any, was stored.  If the dispatch then
    fails, the endpoint raises the HTTP error 500 built from the failure,
    the table of messages is the old one followed by the user's message and
    nothing else, so no assistant message was added, and listing the
    session afterwards returns the old log followed by the user's
    message. *)
Theorem provider_failure_keeps_user_message (uuid4 : string)
    (env : Env) llm (session_id : Z) (text : string)
    (image : option UploadFile) u w (s : ChatSession)
    (image_path : option string) (w_up : World) (e : exn) :
  query_session w session_id u = Some s →
  handle_image_upload uuid4 env image (user_id u) session_id w
  = (Return image_path, w_up) →
  let user_message :=
    fst (db_add_message session_id "user" text image_path w_up) in
  let w1 := snd (db_add_message session_id "user" text image_path w_up) in
  process_chat_message Image_open llm (fs w1) text image_path
    (Some (query_messages w1 session_id)) = Raise e →
  let r := send_message Image_open uuid4 env llm session_id text
             image u w in
  fst r = Raise (HTTPException 500 ("LLM processing error: " +:+ str_exn e))
  ∧ (∃ cause, e = provider_error cause)
  ∧ messages (snd r) = messages w ++ [user_message]
  ∧ user_message
    = mkMessage (next_message_id w) session_id "user" text image_path
        (clock w)
  ∧ filter (λ m, msg_role m = "assistant") (messages (snd r))
    = filter (λ m, msg_role m = "assistant") (messages w)
  ∧ (store_ok w →
       get_session_messages session_id u (snd r)
       = Return (query_messages w session_id ++ [user_message])).
Proof.
  intros Hq Hup user_message w1 He r.
  destruct (handle_image_upload_return _ _ _ _ _ _ _ _ Hup)
    as (Hs & Hm & Hn & Hc & _).
  assert (r = (Raise (HTTPException 500
                        ("LLM processing error: " +:+ str_exn e)), w1)) as ->.
  { subst r. unfold send_message. rewrite Hq, Hup.
    destruct (db_add_message session_id "user" text image_path w_up)
      as [um w1'] eqn:E.
    subst w1. simpl in He. by rewrite He. }
  simpl. split_and!; try done.
  - by eapply process_chat_message_raise.
  - by rewrite Hm.
  - subst user_message. simpl. by rewrite Hn, Hc.
  - rewrite Hm, filter_app. simpl.
    rewrite filter_cons_False, filter_nil by done. by rewrite app_nil_r.
  - intros Hok.
    assert (store_ok w_up) as Hok' by by eapply store_ok_fs_irrelevant.
    unfold get_session_messages.
    rewrite (query_session_ext w w1) by (by subst w1; simpl).
    rewrite Hq. f_equal. subst w1.
    rewrite query_messages_db_add_message by done.
    rewrite bool_decide_eq_true_2 by done.
    by rewrite (query_messages_ext w w_up).
Qed.

(** C7.  When [send_message] returns, the table of messages is the old one
    followed by the user's message and by exactly one further row, the one
    returned: its role is "assistant", its content is the text that the
    dispatcher returned in this request (for the stored upload, the new
    text and the log that ends with the user's message), it has no image
    reference and it was created after the user's message.  The session
    row keeps its columns except [updated_at], which is set to a clock
    reading taken during the call; on an ordered store this is later than
    the old value, and the listing of the session is the old log followed
    by the two new rows. *)
Theorem successful_send_appends_assistant (uuid4 : string)
    (env : Env) llm (session_id : Z) (text : string)
    (image : option UploadFile) u w (assistant_message : Message)
    (w' : World) :
  send_message Image_open uuid4 env llm session_id text image u w
  = (Return assistant_message, w') →
  ∃ (s : ChatSession) (image_path : option string) (w_up : World)
    (reply : string),
    let user_message :=
      mkMessage (next_message_id w) session_id "user" text image_path
        (clock w) in
    let w1 := snd (db_add_message session_id "user" text image_path w_up) in
    query_session w session_id u = Some s
    ∧ handle_image_upload uuid4 env image (user_id u) session_id w
      = (Return image_path, w_up)
    ∧ process_chat_message Image_open llm (fs w1) text image_path
        (Some (query_messages w1 session_id)) = Return reply
    ∧ assistant_message
      = mkMessage (next_message_id w + 1) session_id "assistant" reply None
          (clock w + 2)
    ∧ messages w' = messages w ++ [user_message; assistant_message]
    ∧ msg_created_at user_message < msg_created_at assistant_message
    ∧ sessions w'
      = <[session_id := mkChatSession (cs_user_id s) (cs_title s)
                          (cs_created_at s) (clock w + 1)]> (sessions w)
    ∧ (store_ok w →
         cs_updated_at s < clock w + 1
         ∧ get_session_messages session_id u w'
           = Return (query_messages w session_id
                     ++ [user_message; assistant_message])).
Proof.
  unfold send_message.
  destruct (query_session w session_id u) as [s|] eqn:Hq; [|done].
  destruct (handle_image_upload _ _ _ _ _ _) as [[image_path|e] w_up] eqn:Hup;
    [|done].
  destruct (handle_image_upload_return _ _ _ _ _ _ _ _ Hup)
    as (Hs & Hm & Hn & Hc & _).
  destruct (db_add_message session_id "user" text image_path w_up)
    as [um w1] eqn:Hadd.
  injection Hadd as <- <-. cbn [fst snd fs messages sessions clock
    next_message_id utcnow db_add_message].
  match goal with
  | |- context [process_chat_message ?a ?b ?c ?d ?e ?f] =>
      destruct (process_chat_message a b c d e f) as [reply|e0] eqn:Hp
  end; [|done].
  intros [= <- <-]. exists s, image_path, w_up, reply. cbv zeta.
  split; [done|]. split; [done|]. split; [exact Hp|].
  cbn [messages sessions clock next_message_id fs].
  rewrite Hs, Hm, Hn, Hc.
  split_and!.
  - f_equal; lia.
  - rewrite <- app_assoc. simpl. repeat f_equal; lia.
  - simpl. lia.
  - done.
  - intros Hok. split.
    + destruct Hok as (_ & _ & Hu).
      apply query_session_Some in Hq as [Hq _].
      specialize (Hu _ _ Hq). simpl in Hu. lia.
    + unfold get_session_messages, query_session. cbn [sessions].
      rewrite lookup_insert_eq. cbn [cs_user_id].
      apply query_session_Some in Hq as [_ Hq].
      rewrite bool_decide_eq_true_2 by done. f_equal.
      rewrite query_messages_sorted.
      2:{ destruct Hok as (Hso & Hcl & Hu). unfold store_ok.
          cbn [messages sessions clock]. split_and!.
          - rewrite <- app_assoc.
            apply StronglySorted_app_2; [|done|].
            + intros x1 x2 H1 H2. rewrite Forall_forall in Hcl.
              specialize (Hcl _ H1). unfold created_before.
              set_unfold in H2.
              destruct H2 as [-> | [-> | []]]; simpl; lia.
            + repeat constructor. unfold created_before. simpl. lia.
          - rewrite !Forall_app. split_and!.
            + eapply Forall_impl; [done|]. simpl. lia.
            + repeat constructor. simpl. lia.
            + repeat constructor. simpl. lia.
          - apply map_Forall_insert_2; [simpl; lia|].
            eapply map_Forall_impl; [done|]. simpl. lia. }
      cbn [messages]. rewrite (query_messages_sorted w) by done.
      rewrite <- app_assoc, filter_app. f_equal. cbn [app].
      rewrite !filter_cons_True, filter_nil by done.
      repeat f_equal; lia.
Qed.

(** C3 (amended).  A request to a session of the caller that carries an
    image whose extension, lower-cased, is outside the allow-list, or whose
    size exceeds [MAX_FILE_SIZE] = 10 * 1024 * 1024 bytes, raises an HTTP
    error 400 and leaves the whole state - tables and upload directory - as
    it was, so the listing of the session is what it was before. *)
Theorem invalid_image_rejected_before_persistence (uuid4 : string)
    (env : Env) llm (session_id : Z) (text : string)
    (f : UploadFile) u w (s : ChatSession) :
  query_session w session_id u = Some s →
  lower (Path.suffix (filename f)) ∉ ALLOWED_EXTENSIONS
  ∨ Z.of_nat (length (content f)) > MAX_FILE_SIZE →
  let r := send_message Image_open uuid4 env llm session_id text
             (Some f) u w in
  (∃ detail, fst r = Raise (HTTPException 400 detail))
  ∧ snd r = w
  ∧ get_session_messages session_id u (snd r)
    = get_session_messages session_id u w
  ∧ MAX_FILE_SIZE = 10485760.
Proof.
  intros Hq Hbad r. subst r. unfold send_message, handle_image_upload.
  rewrite Hq.
  destruct (save_uploaded_image_invalid uuid4 env f (user_id u)
              session_id (fs w) Hbad) as [detail ->].
  simpl. destruct w; simpl. eauto.
Qed.


(** Whoever the caller is, a request with such an image persists nothing. *)
Lemma invalid_image_never_persists (uuid4 : string)
    (env : Env) llm (session_id : Z) (text : string)
    (f : UploadFile) u w :
  lower (Path.suffix (filename f)) ∉ ALLOWED_EXTENSIONS
  ∨ Z.of_nat (length (content f)) > MAX_FILE_SIZE →
  let r := send_message Image_open uuid4 env llm session_id text
             (Some f) u w in
  is_raise (fst r) = true ∧ snd r = w.
Proof.
  intros Hbad r. subst r.
  destruct (query_session w session_id u) as [s|] eqn:Hq.
  - unfold send_message, handle_image_upload. rewrite Hq.
    destruct (save_uploaded_image_invalid uuid4 env f (user_id u)
                session_id (fs w) Hbad) as [detail ->].
    simpl. by destruct w.
  - unfold send_message. by rewrite Hq.
Qed.
End OrchestratorClaims.

(** The ordering invariant is kept by every endpoint. *)
Section Invariant.
Context {Image : Type} (Image_open : list Byte.byte → option Image).

Lemma store_ok_send_message (uuid4 : string) (env : Env)
    (llm : Provider Image) (session_id : Z) (text : string)
    (image : option UploadFile) (u : User) (w : World) :
  store_ok w →
  store_ok (snd (send_message Image_open uuid4 env llm session_id
                   text image u w)).
Proof.
  intros Hok. unfold send_message.
  destruct (query_session w session_id u) as [s|]; [|done].
  destruct (handle_image_upload _ _ _ _ _ _) as [[image_path|e] w_up] eqn:Hup.
  2:{ apply handle_image_upload_raise in Hup as (Hs & Hm & _ & Hc & _).
      by eapply store_ok_fs_irrelevant. }
  destruct (handle_image_upload_return _ _ _ _ _ _ _ _ Hup)
    as (Hs & Hm & _ & Hc & _).
  assert (store_ok w_up) as Hok' by by eapply store_ok_fs_irrelevant.
  pose proof (store_ok_db_add_message session_id "user" text image_path
                w_up Hok') as Hok1.
  destruct (db_add_message session_id "user" text image_path w_up)
    as [um w1] eqn:Hadd.
  simpl in Hok1.
  destruct (process_chat_message _ _ _ _ _ _) as [reply|e]; [|done].
  apply store_ok_utcnow in Hok1. simpl in Hok1.
  cbn [utcnow db_add_message snd].
  match goal with
  | |- store_ok ?w2 =>
      match w2 with
      | context [?m :: nil] =>
          change w2 with
            (snd (db_add_message session_id "assistant" reply None
                    (mkWorld
                       (<[session_id := mkChatSession (cs_user_id s)
                            (cs_title s) (cs_created_at s) (clock w1)]>
                          (sessions w1))
                       (messages w1) (next_message_id w1) (clock w1 + 1)
                       (fs w1))))
      end
  end.
  apply store_ok_db_add_message.
  destruct Hok1 as (H1 & H2 & H3). unfold store_ok. simpl. split_and!; try done.
  apply map_Forall_insert_2; [simpl; lia | done].
Qed.

Lemma store_ok_delete_chat_session (session_id : Z) (u : User) (w : World) :
  store_ok w → store_ok (snd (delete_chat_session session_id u w)).
Proof.
  intros Hok. unfold delete_chat_session.
  destruct (query_session w session_id u); [|done].
  by apply store_ok_db_delete_session.
Qed.
End Invariant.

(** ** Deleting a session *)

Section Deletion.
Implicit Types (w : World) (u : User).

(** What the endpoint does for a session of the caller: the row and the
    messages of the session go, the upload directory is not touched. *)
Lemma delete_chat_session_effect (session_id : Z) u w (s : ChatSession) :
  query_session w session_id u = Some s →
  let r := delete_chat_session session_id u w in
  fst r = Return "Session deleted successfully"
  ∧ sessions (snd r) !! session_id = None
  ∧ query_messages (snd r) session_id = []
  ∧ get_session_messages session_id u (snd r) = Raise not_found
  ∧ fs (snd r) = fs w.
Proof.
  intros Hq r. subst r. unfold delete_chat_session. rewrite Hq. simpl.
  split_and!; try done.
  - apply lookup_delete_eq.
  - unfold query_messages. simpl. rewrite list_filter_filter.
    replace (filter _ (messages w)) with (@nil Message); [done|].
    symmetry. induction (messages w) as [|m l IH]; [done|].
    rewrite filter_cons_False; [done | tauto].
  - unfold get_session_messages, query_session. simpl.
    by rewrite lookup_delete_eq.
Qed.

(** [delete_session_images] removes every file below the directory of the
    session. *)
Lemma delete_session_images_clears (uid sid : Z) (fs0 : FS) (p : string) :
  below (UPLOAD_DIR // pretty uid // pretty sid) p = true →
  delete_session_images uid sid fs0 !! p = None.
Proof.
  intros Hp. unfold delete_session_images, dir_exists, rmtree.
  case_bool_decide as Hd; simpl.
  - destruct (fs0 !! p) as [b|] eqn:E; [|done].
    assert (filter (λ kv, below (UPLOAD_DIR // pretty uid // pretty sid) kv.1
                          = true) fs0 !! p = Some b) as Hin
      by by apply map_lookup_filter_Some.
    by rewrite Hd in Hin.
  - apply map_lookup_filter_None. right. intros b _. simpl. by rewrite Hp.
Qed.

(** C5.  alice owns session 1, whose only user message refers to the
    stored upload [uploads/1/1/3f2a.png].  Deleting the session succeeds,
    removes the session row and the messages, and listing the session then
    raises not-found; but the file is still in the upload directory
    afterwards.  [delete_session_images], which would remove it, is not
    called by the endpoint. *)
Theorem delete_chat_session_leaves_blobs :
  let r := delete_chat_session 1 Demo.alice Demo.w1 in
  query_session Demo.w1 1 Demo.alice
  = Some (mkChatSession 1 "Chat A" 0 3)
  ∧ map msg_image_path (query_messages Demo.w1 1)
    = [Some "uploads/1/1/3f2a.png"; None]
  ∧ fst r = Return "Session deleted successfully"
  ∧ sessions (snd r) !! 1 = None
  ∧ messages (snd r) = []
  ∧ get_session_messages 1 Demo.alice (snd r) = Raise not_found
  ∧ fs (snd r) !! "uploads/1/1/3f2a.png" = Some ["x"%byte; "y"%byte]
  ∧ delete_session_images 1 1 (fs (snd r)) !! "uploads/1/1/3f2a.png" = None.
Proof. vm_compute. split_and!; reflexivity. Qed.
End Deletion.

(** ** The theorems at concrete inputs *)

Section Instances.
Import Demo.

Lemma store_ok_w0 : store_ok w0.
Proof.
  unfold store_ok, w0; simpl. split_and!; [constructor | constructor |].
  intros k s. rewrite lookup_insert. case_decide.
  - intros [= <-]. simpl. lia.
  - rewrite lookup_insert. case_decide; [|by rewrite lookup_empty].
    intros [= <-]. simpl. lia.
Qed.

(** alice asks while the provider is down: error 500, and her message is
    the only row of the table. *)
Lemma provider_failure_keeps_user_message_witness :
  query_session w0 1 alice = Some (mkChatSession 1 "Chat A" 0 0)
  ∧ handle_image_upload "3f2a" env_ok None (user_id alice) 1 w0
    = (Return None, w0)
  ∧ fst (send_message Image_open "3f2a" env_ok llm_down 1 "hi" None alice w0)
    = Raise (HTTPException 500
        "LLM processing error: Error calling Gemini API: 504 Deadline Exceeded")
  ∧ messages
      (snd (send_message Image_open "3f2a" env_ok llm_down 1 "hi" None alice w0))
    = [] ++ [mkMessage 1 1 "user" "hi" None 2].
Proof.
  assert (query_session w0 1 alice = Some (mkChatSession 1 "Chat A" 0 0))
    as Hq by (vm_compute; reflexivity).
  assert (handle_image_upload "3f2a" env_ok None (user_id alice) 1 w0
          = (Return None, w0)) as Hup by reflexivity.
  assert (process_chat_message Image_open llm_down
            (fs (snd (db_add_message 1 "user" "hi" None w0))) "hi" None
            (Some (query_messages
                     (snd (db_add_message 1 "user" "hi" None w0)) 1))
          = Raise (provider_error
                     (PyException "DeadlineExceeded" "504 Deadline Exceeded")))
    as He by (vm_compute; reflexivity).
  split; [exact Hq|]. split; [exact Hup|].
  pose proof (provider_failure_keeps_user_message Image_open "3f2a" env_ok
                llm_down 1 "hi" None alice w0 _ None w0 _ Hq Hup He)
    as (H1 & _ & H2 & _).
  split; [exact H1 | exact H2].
Defined.

(** alice uploads [setup.exe] to her own session. *)
Lemma invalid_image_rejected_before_persistence_witness :
  query_session w0 1 alice = Some (mkChatSession 1 "Chat A" 0 0)
  ∧ (lower (Path.suffix (filename exe)) ∉ ALLOWED_EXTENSIONS)
  ∧ (∃ detail,
       fst (send_message Image_open "3f2a" env_ok llm_ok 1 "hi" (Some exe)
              alice w0) = Raise (HTTPException 400 detail))
  ∧ snd (send_message Image_open "3f2a" env_ok llm_ok 1 "hi" (Some exe)
           alice w0) = w0.
Proof.
  assert (query_session w0 1 alice = Some (mkChatSession 1 "Chat A" 0 0))
    as Hq by (vm_compute; reflexivity).
  assert (lower (Path.suffix (filename exe)) ∉ ALLOWED_EXTENSIONS) as Hext
    by (apply (bool_decide_unpack _); vm_compute; exact I).
  split; [exact Hq|]. split; [exact Hext|].
  pose proof (invalid_image_rejected_before_persistence Image_open "3f2a"
                env_ok llm_ok 1 "hi" exe alice w0 _ Hq (or_introl Hext))
    as (H1 & H2 & _).
  split; [exact H1 | exact H2].
Defined.

(** C3 as stated fails: alice uploads [setup.exe] to bob's session 2; the
    extension is outside the allow-list, and the request fails with the
    not-found error 404, not with an error 400. *)
Lemma invalid_image_on_foreign_session_is_404 :
  let r := send_message Image_open "3f2a" env_ok llm_ok 2 "hi" (Some exe)
             alice w0 in
  (lower (Path.suffix (filename exe)) ∉ ALLOWED_EXTENSIONS)
  ∧ sessions w0 !! 2 = Some (mkChatSession 2 "Chat B" 1 1)
  ∧ fst r = Raise (HTTPException 404 "Session not found")
  ∧ ¬ (∃ detail, fst r = Raise (HTTPException 400 detail)).
Proof.
  intros r.
  assert (fst r = Raise (HTTPException 404 "Session not found")) as Hr
    by (vm_compute; reflexivity).
  split_and!.
  - apply (bool_decide_unpack _). vm_compute. exact I.
  - vm_compute. reflexivity.
  - exact Hr.
  - intros [detail Hd]. rewrite Hr in Hd. discriminate Hd.
Qed.

(** alice addresses session 2 after bob has deleted it, and while it is
    bob's: the same answer. *)
Lemma foreign_session_is_not_found_witness :
  sessions w2 !! 2 = None
  ∧ sessions w0 !! 2 = Some (mkChatSession 2 "Chat B" 1 1)
  ∧ cs_user_id (mkChatSession 2 "Chat B" 1 1) ≠ user_id alice
  ∧ fst (send_message Image_open "3f2a" env_ok llm_ok 2 "hi" (Some png) alice
           w2)
    = fst (send_message Image_open "3f2a" env_ok llm_ok 2 "hi" (Some png)
             alice w0).
Proof.
  assert (sessions w2 !! 2 = None) as Hmiss by (vm_compute; reflexivity).
  assert (sessions w0 !! 2 = Some (mkChatSession 2 "Chat B" 1 1)) as Hfor
    by (vm_compute; reflexivity).
  assert (cs_user_id (mkChatSession 2 "Chat B" 1 1) ≠ user_id alice) as Hown
    by (simpl; lia).
  split; [exact Hmiss|]. split; [exact Hfor|]. split; [exact Hown|].
  pose proof (foreign_session_is_not_found Image_open "3f2a" env_ok llm_ok 2
                "hi" (Some png) alice w2 w0 _ Hmiss Hfor Hown)
    as (H1 & H2 & _).
  rewrite H1, H2. reflexivity.
Defined.


(** alice's request of [w1] succeeded. *)
Lemma successful_send_appends_assistant_witness :
  send_message Image_open "3f2a" env_ok llm_ok 1 "look at my cat" (Some png)
    alice w0
  = (Return (mkMessage 2 1 "assistant" "Hello!" None 4), w1)
  ∧ ∃ image_path,
      messages w1
      = messages w0
        ++ [mkMessage (next_message_id w0) 1 "user" "look at my cat"
              image_path (clock w0);
            mkMessage 2 1 "assistant" "Hello!" None 4].
Proof.
  assert (send_message Image_open "3f2a" env_ok llm_ok 1 "look at my cat"
            (Some png) alice w0
          = (Return (mkMessage 2 1 "assistant" "Hello!" None 4), w1)) as Hs
    by (vm_compute; reflexivity).
  split; [exact Hs|].
  pose proof (successful_send_appends_assistant Image_open "3f2a" env_ok llm_ok
                1 "look at my cat" (Some png) alice w0 _ _ Hs)
    as (s & image_path & w_up & reply & _ & _ & _ & _ & Hm & _).
  exists image_path. exact Hm.
Defined.

(** The second of the history [u1; a1; u2], with [u3] the newest. *)
Lemma role_mapping_fixed_witness :
  [u1; a1; u2] !! 1%nat = Some a1
  ∧ build_message_history Image_open ∅ ([u1; a1; u2] ++ [u3]) !! 1%nat
    = Some (mkTurn "model" [TextPart "hello"])
  ∧ (role (mkTurn (Image := Image) "model" [TextPart "hello"]) = "model"
     ↔ msg_role a1 = "assistant").
Proof.
  assert ([u1; a1; u2] !! 1%nat = Some a1) as Hm by reflexivity.
  assert (build_message_history Image_open ∅ ([u1; a1; u2] ++ [u3]) !! 1%nat
          = Some (mkTurn "model" [TextPart "hello"])) as Ht
    by (vm_compute; reflexivity).
  split; [exact Hm|]. split; [exact Ht|].
  exact (proj1 (role_mapping_fixed Image_open ∅ [u1; a1; u2] u3 1 a1 _ Hm Ht)).
Defined.

(** A message stored with role "system" becomes a "user" turn. *)
Lemma other_roles_become_user_witness :
  [s1; u1] !! 0%nat = Some s1
  ∧ msg_role s1 ≠ "assistant"
  ∧ ∃ t : Turn Image,
      build_message_history Image_open ∅ ([s1; u1] ++ [u3]) !! 0%nat = Some t
      ∧ role t = "user"
      ∧ last (parts t) = Some (TextPart (msg_content s1)).
Proof.
  assert ([s1; u1] !! 0%nat = Some s1) as Hm by reflexivity.
  assert (msg_role s1 ≠ "assistant") as Hr by (simpl; discriminate).
  split; [exact Hm|]. split; [exact Hr|].
  exact (proj1 (other_roles_become_user Image_open ∅ [s1; u1] u3 0 s1 Hm Hr)).
Defined.
End Instances.

(** * Further properties of the code *)

(** ** Strings *)

Section StringFacts.
Implicit Types (s a b old : string) (c : ascii).

Lemma prefix_app a b : String.prefix a (a +:+ b) = true.
Proof.
  induction a as [|c a IH]; simpl; [by destruct b|].
  destruct (ascii_dec c c); [done | congruence].
Qed.

Lemma prefix_inv a s : String.prefix a s = true → ∃ b, s = a +:+ b.
Proof.
  revert s. induction a as [|c a IH]; intros s.
  - intros _. by exists s.
  - destruct s as [|c' s]; simpl; [done|].
    destruct (ascii_dec c c') as [<-|]; [|done].
    intros H. destruct (IH _ H) as [b ->]. by exists b.
Qed.

Lemma String_app c a b : String c a +:+ b = String c (a +:+ b).
Proof. reflexivity. Qed.

Lemma app_String_assoc a b s :
  (a +:+ b) +:+ s = a +:+ (b +:+ s).
Proof.
  induction a as [|c a IH]; [done|]. by rewrite !String_app, IH.
Qed.

Lemma contains_prefix old s :
  String.prefix old s = true → contains old s = true.
Proof. destruct s; simpl; [done|]. by intros ->. Qed.

Lemma contains_cons old c s :
  contains old (String c s) = false →
  String.prefix old (String c s) = false ∧ contains old s = false.
Proof. cbn [contains]. by intros [? ?]%orb_false_iff. Qed.

(** Where [old] does not occur, nothing is replaced. *)
Lemma replace_go_absent old new s :
  contains old s = false → replace_go old new 0 s = s.
Proof.
  induction s as [|c s IH]; [done|].
  intros [Hp Hs]%contains_cons. cbn [replace_go]. rewrite Hp.
  by rewrite IH.
Qed.

(** The characters of a matched occurrence are passed over. *)
Lemma replace_go_skip old new a s :
  replace_go old new (String.length a) (a +:+ s) = replace_go old new 0 s.
Proof. induction a as [|c a IH]; simpl; [done | apply IH]. Qed.

Lemma rfind_split c s (i : nat) :
  rfind c s = Some i →
  ∃ stem, String.length stem = i ∧ s = stem +:+ drop_str i s.
Proof.
  revert i. induction s as [|a s IH]; intros i; simpl; [done|].
  destruct (rfind c s) as [j|] eqn:E.
  - intros [= <-]. destruct (IH j eq_refl) as (stem & Hl & Hs).
    exists (String a stem). split; [simpl; by rewrite Hl|].
    rewrite String_app. cbn [drop_str]. by rewrite <- Hs.
  - destruct (Ascii.eqb a c); [|done]. intros [= <-]. by exists "".
Qed.
End StringFacts.

(** ** Blob store *)

Section BlobStore.
Implicit Types (f : UploadFile) (p q : string).

Lemma empty_not_allowed : "" ∉ ALLOWED_EXTENSIONS.
Proof. apply (bool_decide_unpack _). vm_compute. exact I. Qed.

Lemma below_div (d x : string) : below d (d // x) = true.
Proof.
  unfold below, Path.div. rewrite <- app_String_assoc. apply prefix_app.
Qed.

(** A non-empty suffix leaves a non-empty stem in front of it. *)
Lemma suffix_spec p :
  Path.suffix p = ""
  ∨ ∃ stem, stem ≠ "" ∧ Path.name p = stem +:+ Path.suffix p.
Proof.
  unfold Path.suffix. destruct (rfind "." (Path.name p)) as [i|] eqn:E;
    [|by left].
  destruct ((0 <? i)%nat && (i <? String.length (Path.name p) - 1)%nat) eqn:C;
    [|by left].
  right. apply andb_true_iff in C as [Hi _]. apply Nat.ltb_lt in Hi.
  destruct (rfind_split _ _ _ E) as (stem & Hl & Hs).
  exists stem. split; [|done]. intros ->. simpl in Hl. lia.
Qed.

Lemma save_uploaded_image_return (uuid4 : string)
    (env : Env) f (uid sid : Z) (fs0 : FS) p (fs' : FS) :
  save_uploaded_image uuid4 env f uid sid fs0 = (Return p, fs') →
  lower (Path.suffix (filename f)) ∈ ALLOWED_EXTENSIONS
  ∧ p = UPLOAD_DIR // pretty uid // pretty sid
          // (uuid4 +:+ lower (Path.suffix (filename f)))
  ∧ fs' = <[p := content f]> fs0.
Proof.
  unfold save_uploaded_image.
  case_bool_decide as Hext; [done|]. case_bool_decide as Hsize; [done|].
  destruct (disk_fault env) as [[e|e|e written]|]; try done.
  by intros [= <- <-].
Qed.

Lemma delete_session_images_lookup_eq (uid sid : Z) (fs0 : FS) p :
  delete_session_images uid sid fs0 !! p
  = if below (UPLOAD_DIR // pretty uid // pretty sid) p then None
    else fs0 !! p.
Proof.
  destruct (below _ p) eqn:Hb.
  - by apply delete_session_images_clears.
  - unfold delete_session_images, dir_exists, rmtree.
    case_bool_decide; simpl; [done|].
    destruct (fs0 !! p) as [b|] eqn:E.
    + by apply map_lookup_filter_Some.
    + apply map_lookup_filter_None. by left.
Qed.


(** X2.  When [save_uploaded_image] returns, the path is
    [uploads/<user>/<session>/<uuid4><ext>] with [ext] the allowed,
    lower-cased extension: nothing else of the client's file name enters it.
    The file at that path holds the uploaded bytes, it lies below the
    directory of the session, and every other file is as before. *)
Theorem save_uploaded_image_stores (uuid4 : string)
    (env : Env) f (uid sid : Z) (fs0 : FS) p (fs' : FS) :
  save_uploaded_image uuid4 env f uid sid fs0 = (Return p, fs') →
  lower (Path.suffix (filename f)) ∈ ALLOWED_EXTENSIONS
  ∧ p = UPLOAD_DIR // pretty uid // pretty sid
          // (uuid4 +:+ lower (Path.suffix (filename f)))
  ∧ below (UPLOAD_DIR // pretty uid // pretty sid) p = true
  ∧ fs' !! p = Some (content f)
  ∧ (∀ q, q ≠ p → fs' !! q = fs0 !! q).
Proof.
  intros (Hext & -> & ->)%save_uploaded_image_return.
  split_and!; try done.
  - apply below_div.
  - apply lookup_insert_eq.
  - intros q Hq. by apply lookup_insert_ne.
Qed.

(** X3.  An accepted upload has a file name whose final component is a
    non-empty stem followed by an extension that is allowed up to case: a
    name without a dot, a name that is only an extension ([.png]) and a
    name of a different type are rejected. *)
Theorem accepted_upload_has_stem_and_extension (uuid4 : string)
    (env : Env) f (uid sid : Z) (fs0 : FS) p (fs' : FS) :
  save_uploaded_image uuid4 env f uid sid fs0 = (Return p, fs') →
  ∃ stem ext,
    stem ≠ "" ∧ Path.name (filename f) = stem +:+ ext
    ∧ lower ext ∈ ALLOWED_EXTENSIONS.
Proof.
  intros Hs. apply save_uploaded_image_return in Hs as (Hext & _).
  destruct (suffix_spec (filename f)) as [He | (stem & Hne & Hn)].
  - rewrite He in Hext. by destruct empty_not_allowed.
  - by exists stem, (Path.suffix (filename f)).
Qed.

(** X4.  [delete_session_images] removes exactly the files below the
    directory of the session and keeps every other file; doing it twice is
    doing it once, and without such files it changes nothing. *)
Theorem delete_session_images_lookup (uid sid : Z) (fs0 : FS) :
  (∀ p, delete_session_images uid sid fs0 !! p
        = if below (UPLOAD_DIR // pretty uid // pretty sid) p then None
          else fs0 !! p)
  ∧ delete_session_images uid sid (delete_session_images uid sid fs0)
    = delete_session_images uid sid fs0
  ∧ ((∀ p, below (UPLOAD_DIR // pretty uid // pretty sid) p = true →
           fs0 !! p = None) →
     delete_session_images uid sid fs0 = fs0).
Proof.
  pose proof (delete_session_images_lookup_eq uid sid) as Hlookup.
  split_and!; [done| |].
  - apply map_eq. intros p. rewrite !Hlookup. by destruct (below _ p).
  - intros Hnone. apply map_eq. intros p. rewrite Hlookup.
    destruct (below _ p) eqn:Hb; [by rewrite Hnone | done].
Qed.

(** X5.  A file stored by [save_uploaded_image] for a session is removed by
    [delete_session_images] for that session, and the files outside the
    directory of the session are then what they were before the upload. *)
Theorem save_then_delete_session_images (uuid4 : string)
    (env : Env) f (uid sid : Z) (fs0 : FS) p (fs' : FS) :
  save_uploaded_image uuid4 env f uid sid fs0 = (Return p, fs') →
  delete_session_images uid sid fs' !! p = None
  ∧ (∀ q, below (UPLOAD_DIR // pretty uid // pretty sid) q = false →
          delete_session_images uid sid fs' !! q = fs0 !! q).
Proof.
  intros (_ & -> & ->)%save_uploaded_image_return.
  rewrite !delete_session_images_lookup_eq, below_div. split; [done|].
  intros q Hq. rewrite delete_session_images_lookup_eq, Hq.
  apply lookup_insert_ne. intros <-. by rewrite below_div in Hq.
Qed.
End BlobStore.

(** ** Public references of stored images *)

Section ImageUrl.
Implicit Types (s a b rest : string) (c : ascii).

Lemma has_char_app c a b :
  has_char c (a +:+ b) = has_char c a || has_char c b.
Proof.
  induction a as [|x a IH]; [done|].
  rewrite String_app. cbn [has_char]. by rewrite IH, orb_assoc.
Qed.

(** A string without the first character of [old] has no occurrence of
    [old]. *)
Lemma contains_has_char c (old' : string) s :
  has_char c s = false → contains (String c old') s = false.
Proof.
  induction s as [|x s IH]; [done|]. cbn [has_char contains].
  intros [Hx Hs]%orb_false_iff. rewrite (IH Hs), orb_false_r. simpl.
  destruct (ascii_dec c x) as [->|]; [|done].
  by rewrite Ascii.eqb_refl in Hx.
Qed.

Lemma pretty_N_go_has_char c (x : N) s :
  (∀ d, pretty_N_char d ≠ c) →
  has_char c s = false → has_char c (pretty_N_go x s) = false.
Proof.
  intros Hc. revert s. induction (N.lt_wf_0 x) as [x _ IH]; intros s Hs.
  assert (x = 0 ∨ 0 < x)%N as [-> | Hx] by lia.
  - by rewrite pretty_N_go_0.
  - rewrite pretty_N_go_step by done. apply IH; [by apply N.div_lt|].
    cbn [has_char]. rewrite Hs, orb_false_r.
    apply Ascii.eqb_neq, Hc.
Qed.

Lemma pretty_Z_has_char c (z : Z) :
  (∀ d, pretty_N_char d ≠ c) → c ≠ "-"%char →
  has_char c (pretty z) = false.
Proof.
  intros Hc Hd.
  assert (∀ x : positive, has_char c (pretty x) = false) as Hpos.
  { intros x. unfold pretty, pretty_positive, pretty, pretty_N.
    case_decide; [done|]. by apply pretty_N_go_has_char. }
  destruct z as [|x|x]; unfold pretty, pretty_Z.
  - cbn [has_char]. rewrite orb_false_r. apply Ascii.eqb_neq.
    apply (Hc 0%N).
  - apply Hpos.
  - rewrite String_app. cbn [has_char].
    change ("" +:+ pretty x) with (pretty x). rewrite Hpos, orb_false_r.
    apply Ascii.eqb_neq. congruence.
Qed.

Lemma get_image_url_strip rest :
  contains (UPLOAD_DIR +:+ "/") rest = false →
  get_image_url (UPLOAD_DIR +:+ "/" +:+ rest) = "/api/images/" +:+ rest.
Proof.
  intros Hrest. unfold get_image_url, str_replace. f_equal.
  change (UPLOAD_DIR +:+ "/" +:+ rest) with (String "u" ("ploads/" +:+ rest)).
  cbn [replace_go].
  change (String "u" ("ploads/" +:+ rest)) with ((UPLOAD_DIR +:+ "/") +:+ rest).
  rewrite prefix_app.
  change (String.length (UPLOAD_DIR +:+ "/") - 1)%nat
    with (String.length "ploads/").
  rewrite replace_go_skip. by rewrite replace_go_absent.
Qed.

(** X6.  [get_image_url] removes the leading [uploads/] of a path in which
    [uploads/] does not occur again, and leaves a path without any
    [uploads/] as it is, behind [/api/images/]. *)
Theorem get_image_url_strips_upload_dir rest :
  contains "uploads/" rest = false →
  get_image_url ("uploads/" +:+ rest) = "/api/images/" +:+ rest
  ∧ get_image_url rest = "/api/images/" +:+ rest.
Proof.
  intros Hrest. split.
  - by apply get_image_url_strip.
  - unfold get_image_url, str_replace. by rewrite replace_go_absent.
Qed.

(** X7.  For a file stored by [save_uploaded_image] under a generated name
    without the letter u (a hexadecimal UUID has none), the public
    reference is [/api/images/<user>/<session>/<name><ext>]. *)
Theorem get_image_url_of_stored_upload (uuid4 : string)
    (env : Env) (f : UploadFile) (uid sid : Z) (fs0 : FS)
    (p : string) (fs' : FS) :
  save_uploaded_image uuid4 env f uid sid fs0 = (Return p, fs') →
  has_char "u" uuid4 = false →
  get_image_url p
  = "/api/images/" +:+ pretty uid +:+ "/" +:+ pretty sid +:+ "/"
      +:+ uuid4 +:+ lower (Path.suffix (filename f)).
Proof.
  intros (Hext & -> & _)%save_uploaded_image_return Hu.
  set (ext := lower (Path.suffix (filename f))) in *.
  assert (has_char "u" ext = false) as He.
  { unfold ALLOWED_EXTENSIONS in Hext. set_unfold in Hext.
    destruct Hext as [[[[-> | ->] | ->] | ->] | ->]; reflexivity. }
  assert (∀ z : Z, has_char "u" (pretty z) = false) as Hz.
  { intros z. apply pretty_Z_has_char; [|done].
    intros d. unfold pretty_N_char. by repeat case_match. }
  unfold Path.div. rewrite !app_String_assoc.
  rewrite get_image_url_strip; [done|].
  apply contains_has_char.
  rewrite !has_char_app, !Hz, Hu, He. reflexivity.
Qed.
End ImageUrl.

(** ** More on the Context Builder *)

Section ContextBuilderMore.
Context {Image : Type} (Image_open : list Byte.byte → option Image).
Implicit Types (h l : list Message) (m : Message).

(** X8.  A history of a single message gives no history turn at all: for
    the dispatcher it is the same as an empty or an absent history, whatever
    that message is. *)
Theorem single_message_history_is_empty (llm : Provider Image) (fs0 : FS)
    (text : string) (image_path : option string) m :
  build_message_history Image_open fs0 [m] = []
  ∧ process_chat_message Image_open llm fs0 text image_path (Some [m])
    = process_chat_message Image_open llm fs0 text image_path None
  ∧ process_chat_message Image_open llm fs0 text image_path (Some [])
    = process_chat_message Image_open llm fs0 text image_path None.
Proof. split_and!; reflexivity. Qed.

(** X9.  Every turn the builder produces comes from a message of the
    history: its role is "user" or "model", and its parts are the text of
    that message, preceded by one image only if the message refers to an
    existing file.  No turn is empty, none has two images, and none gets an
    image that its message does not refer to. *)
Theorem history_turns_well_formed (fs0 : FS) l (t : Turn Image) :
  t ∈ build_message_history Image_open fs0 l →
  ∃ m, m ∈ l
    ∧ (role t = "user" ∨ role t = "model")
    ∧ (parts t = [TextPart (msg_content m)]
       ∨ ∃ p b image,
           msg_image_path m = Some p ∧ fs0 !! p = Some b
           ∧ Image_open b = Some image
           ∧ parts t = [ImagePart image; TextPart (msg_content m)]).
Proof.
  rewrite build_message_history_map. intros Ht.
  apply list_elem_of_In, in_map_iff in Ht as (m & <- & Hm).
  apply list_elem_of_In in Hm.
  exists m. split_and!.
  - unfold slice_to_minus_1 in Hm. by eapply subseteq_take.
  - rewrite message_turn_role. case_bool_decide; eauto.
  - unfold message_turn. cbn [parts].
    destruct (msg_image_path m) as [p|] eqn:Hp; [|left; reflexivity].
    cbn [from_option]. unfold id. destruct (truthy_str (Some p) && os_path_exists fs0 p);
      [|left; reflexivity].
    unfold load_image. destruct (fs0 !! p) as [b|] eqn:Hb;
      [|left; reflexivity].
    destruct (Image_open b) as [image|] eqn:Hi; [|left; reflexivity].
    right. by exists p, b, image.
Qed.

(** X10.  When the log grows by one message, the history grows by the turn
    of the message that was the newest before, and the earlier turns stay
    the same. *)
Theorem history_grows_by_previous_newest (fs0 : FS) h (a b : Message) :
  build_message_history Image_open fs0 (h ++ [a; b])
  = build_message_history Image_open fs0 (h ++ [a])
    ++ [message_turn Image_open fs0 a].
Proof.
  change (h ++ [a; b]) with (h ++ [a] ++ [b]). rewrite app_assoc.
  rewrite !build_message_history_snoc. by rewrite map_app.
Qed.


End ContextBuilderMore.

(** ** Listing the messages of a session *)

Section Listing.
Implicit Types (w : World) (m : Message) (l : list Message).

Lemma insert_by_created_at_perm m l : insert_by_created_at m l ≡ₚ m :: l.
Proof.
  induction l as [|x l IH]; simpl; [done|].
  destruct (msg_created_at m <=? msg_created_at x); [done|].
  rewrite IH. apply Permutation_swap.
Qed.

Lemma order_by_created_at_perm l : order_by_created_at l ≡ₚ l.
Proof.
  induction l as [|x l IH]; simpl; [done|].
  by rewrite insert_by_created_at_perm, IH.
Qed.

Lemma insert_by_created_at_sorted m l :
  StronglySorted (λ a b, msg_created_at a ≤ msg_created_at b) l →
  StronglySorted (λ a b, msg_created_at a ≤ msg_created_at b)
    (insert_by_created_at m l).
Proof.
  induction 1 as [|x l Hl IH Hx]; simpl; [repeat constructor|].
  destruct (Z.leb_spec (msg_created_at m) (msg_created_at x)) as [Hle|Hgt].
  - constructor; [by constructor|]. constructor; [done|].
    eapply Forall_impl; [done|]. simpl. lia.
  - constructor; [done|].
    rewrite insert_by_created_at_perm. constructor; [lia | done].
Qed.

Lemma order_by_created_at_is_sorted l :
  StronglySorted (λ a b, msg_created_at a ≤ msg_created_at b)
    (order_by_created_at l).
Proof.
  induction l as [|x l IH]; simpl; [constructor|].
  by apply insert_by_created_at_sorted.
Qed.

(** X12.  On every store, ordered or not, the listing of a session returns
    the rows of that session and no others, each as often as it is stored,
    in non-decreasing order of creation time; the store is only read. *)
Theorem get_session_messages_sorted_log (session_id : Z) (u : User) w l :
  get_session_messages session_id u w = Return l →
  StronglySorted (λ a b, msg_created_at a ≤ msg_created_at b) l
  ∧ l ≡ₚ filter (λ m, msg_session_id m = session_id) (messages w)
  ∧ (∀ m, m ∈ l ↔ m ∈ messages w ∧ msg_session_id m = session_id)
  ∧ (length l ≤ length (messages w))%nat.
Proof.
  unfold get_session_messages.
  destruct (query_session w session_id u); [|done]. intros [= <-].
  unfold query_messages.
  pose proof (order_by_created_at_perm
                (filter (λ m, msg_session_id m = session_id) (messages w)))
    as Hperm.
  split_and!.
  - apply order_by_created_at_is_sorted.
  - done.
  - intros m. rewrite Hperm, list_elem_of_filter. tauto.
  - rewrite Hperm. apply length_filter.
Qed.
End Listing.

(** ** What a request changes *)

Section Frame.
Context {Image : Type} (Image_open : list Byte.byte → option Image).
Implicit Types (w : World) (u : User) (llm : Provider Image).

Lemma handle_image_upload_fs (uuid4 : string) (env : Env)
    (image : option UploadFile) (uid sid : Z) w
    (image_path : option string) (w_up : World) :
  handle_image_upload uuid4 env image uid sid w
  = (Return image_path, w_up) →
  (∀ q, below (UPLOAD_DIR // pretty uid // pretty sid) q = false →
        fs w_up !! q = fs w !! q)
  ∧ (image = None → fs w_up = fs w)
  ∧ (∀ p, image_path = Some p →
       ∃ f, image = Some f
            ∧ p = UPLOAD_DIR // pretty uid // pretty sid
                    // (uuid4 +:+ lower (Path.suffix (filename f)))
            ∧ fs w_up !! p = Some (content f)).
Proof.
  unfold handle_image_upload. destruct image as [f|].
  - destruct (save_uploaded_image _ _ _ _ _ _) as [[p|e] fs'] eqn:E; [|done].
    intros [= <- <-]. cbn [fs].
    apply save_uploaded_image_return in E as (_ & Hp & ->).
    split_and!; [|done|].
    + intros q Hq. apply lookup_insert_ne. intros <-.
      by rewrite Hp, below_div in Hq.
    + intros p' [= <-]. exists f. split_and!; [done|done|].
      apply lookup_insert_eq.
  - intros [= <- <-]. split_and!; done.
Qed.

(** Everything [send_message] can change, in every outcome. *)
Lemma send_message_changes (uuid4 : string) (env : Env) llm
    (session_id : Z) (text : string) (image : option UploadFile) u w :
  let w' := snd (send_message Image_open uuid4 env llm session_id
                   text image u w) in
  ∃ added : list Message,
    messages w' = messages w ++ added
    ∧ (length added ≤ 2)%nat
    ∧ Forall (λ m, msg_session_id m = session_id
                   ∧ next_message_id w ≤ msg_id m < next_message_id w') added
    ∧ NoDup (map msg_id added)
    ∧ next_message_id w ≤ next_message_id w'
    ∧ (∀ k, k ≠ session_id → sessions w' !! k = sessions w !! k)
    ∧ (∀ s, sessions w !! session_id = Some s →
         ∃ s', sessions w' !! session_id = Some s'
               ∧ cs_user_id s' = cs_user_id s ∧ cs_title s' = cs_title s
               ∧ cs_created_at s' = cs_created_at s)
    ∧ (sessions w !! session_id = None → sessions w' !! session_id = None)
    ∧ (∀ q, below (UPLOAD_DIR // pretty (user_id u) // pretty session_id) q
            = false → fs w' !! q = fs w !! q)
    ∧ (image = None → fs w' = fs w)
    ∧ (added = [] ∨ is_Some (sessions w !! session_id)).
Proof.
  intros w'. subst w'. unfold send_message.
  destruct (query_session w session_id u) as [s|] eqn:Hq.
  2:{ exists []. cbn [snd]. rewrite app_nil_r.
      split_and!; try done; try constructor; try lia; naive_solver. }
  apply query_session_Some in Hq as [Hq _].
  destruct (handle_image_upload _ _ _ _ _ _) as [[image_path|e] w_up] eqn:Hup.
  2:{ apply handle_image_upload_raise in Hup as (Hs & Hm & Hn & Hc & Hfs).
      exists []. cbn [snd]. rewrite app_nil_r, Hs, Hm, Hn.
      split_and!; try done; try (simpl; lia); try (by constructor).
      - eauto.
      - intros q Hb.
        destruct Hfs as [-> | (f & cause & written & _ & _ & ->)]; [done|].
        apply lookup_insert_ne. intros <-. by rewrite below_div in Hb.
      - intros ->. by destruct Hfs as [-> | (f & ? & ? & ? & _)]. }
  destruct (handle_image_upload_return _ _ _ _ _ _ _ _ Hup)
    as (Hs & Hm & Hn & Hc & _).
  destruct (handle_image_upload_fs _ _ _ _ _ _ _ _ Hup) as (Hfs & Hnone & _).
  cbn [db_add_message].
  destruct (process_chat_message _ _ _ _ _ _) as [reply|e].
  - eexists [_; _].
    cbn [snd utcnow db_add_message messages sessions next_message_id clock fs].
    rewrite Hs, Hm, Hn. split_and!.
    + by rewrite <- app_assoc.
    + done.
    + repeat constructor; simpl; lia.
    + cbn [map msg_id]. rewrite !NoDup_cons. set_unfold.
      split_and!; [|tauto|constructor]. intros [? | []]; lia.
    + lia.
    + intros k Hk. by rewrite lookup_insert_ne.
    + intros s0 Hs0. rewrite lookup_insert_eq. eexists. split; [done|].
      rewrite Hq in Hs0. by injection Hs0 as <-.
    + congruence.
    + done.
    + done.
    + eauto.
  - eexists [_].
    cbn [snd messages sessions next_message_id clock fs].
    rewrite Hs, Hm, Hn. split_and!; try done.
    + simpl. lia.
    + repeat constructor; simpl; lia.
    + repeat constructor; set_solver.
    + lia.
    + eauto.
    + eauto.
Qed.

(** X13.  Whatever its outcome, [send_message] only appends to the table of
    messages: the rows that were there stay where they are, unchanged, and
    none, one or two rows follow them, all of the addressed session and
    with fresh, pairwise distinct primary keys. *)
Theorem send_message_appends_only (uuid4 : string) (env : Env)
    llm (session_id : Z) (text : string) (image : option UploadFile) u w :
  let w' := snd (send_message Image_open uuid4 env llm session_id
                   text image u w) in
  messages w `prefix_of` messages w'
  ∧ (length (messages w') ≤ length (messages w) + 2)%nat
  ∧ (∀ (i : nat) m, messages w !! i = Some m → messages w' !! i = Some m)
  ∧ (∀ (i : nat) m, (length (messages w) ≤ i)%nat →
       messages w' !! i = Some m →
       msg_session_id m = session_id
       ∧ next_message_id w ≤ msg_id m < next_message_id w').
Proof.
  intros w'.
  destruct (send_message_changes uuid4 env llm session_id text image
              u w) as (added & Hm & Hlen & Hadded & _).
  fold w' in Hm, Hadded. rewrite Hm. split_and!.
  - by exists added.
  - rewrite length_app. lia.
  - intros i m Hi. by apply lookup_app_l_Some.
  - intros i m Hi Hl. rewrite lookup_app_r in Hl by done.
    rewrite Forall_forall in Hadded. apply Hadded.
    by eapply list_elem_of_lookup_2.
Qed.

(** X14.  [send_message] touches the addressed session only.  The rows and
    the logs of all other sessions, and all files outside the upload
    directory of the caller and session, are the same afterwards; no session
    appears or disappears, and the addressed session keeps its owner, title
    and creation time.  Without an image no file changes at all. *)
Theorem send_message_isolation (uuid4 : string) (env : Env)
    llm (session_id : Z) (text : string) (image : option UploadFile) u w :
  let w' := snd (send_message Image_open uuid4 env llm session_id
                   text image u w) in
  (∀ k, k ≠ session_id →
     sessions w' !! k = sessions w !! k
     ∧ query_messages w' k = query_messages w k)
  ∧ (∀ k, is_Some (sessions w' !! k) ↔ is_Some (sessions w !! k))
  ∧ (∀ s, sessions w !! session_id = Some s →
       ∃ s', sessions w' !! session_id = Some s'
             ∧ cs_user_id s' = cs_user_id s ∧ cs_title s' = cs_title s
             ∧ cs_created_at s' = cs_created_at s)
  ∧ (∀ q, below (UPLOAD_DIR // pretty (user_id u) // pretty session_id) q
          = false → fs w' !! q = fs w !! q)
  ∧ (image = None → fs w' = fs w).
Proof.
  intros w'.
  destruct (send_message_changes uuid4 env llm session_id text image
              u w)
    as (added & Hm & _ & Hadded & _ & _ & Hother & Hsame & Hnone & Hfs & Hno
        & _).
  fold w' in Hm, Hadded, Hother, Hsame, Hnone, Hfs, Hno.
  split_and!; try done.
  - intros k Hk. split; [by apply Hother|].
    unfold query_messages. rewrite Hm, filter_app.
    replace (filter (λ m, msg_session_id m = k) added) with (@nil Message).
    { by rewrite app_nil_r. }
    symmetry. clear Hm. induction added as [|m l IH]; [done|].
    inversion Hadded as [|? ? [Hsid _] Hl]; subst.
    rewrite filter_cons_False by congruence. by apply IH.
  - intros k. destruct (decide (k = session_id)) as [->|Hk].
    + destruct (sessions w !! session_id) as [s|] eqn:E.
      * destruct (Hsame s eq_refl) as (s' & -> & _). split; eauto.
      * rewrite (Hnone eq_refl). done.
    + by rewrite (Hother k Hk).
Qed.

(** X15.  When the disk fails on an upload that passed the validation, a
    request to a session of the caller stores no message and does not ask
    the model: the tables are as they were and the outcome is the same for
    every provider.  The caller gets the HTTP error 500 of the blob store
    when [open], [read] or [write] failed, and the exception of [mkdir] as
    it is when the directory could not be made.  No file is touched except
    the one at the generated path: when the write failed after [open] had
    created it, it stays, holding what was written, with no message that
    refers to it; otherwise the directory is unchanged as well. *)
Theorem disk_failure_persists_no_message (uuid4 : string) (env : Env)
    (fault : DiskFault) llm (session_id : Z) (text : string)
    (f : UploadFile) u w (s : ChatSession) :
  query_session w session_id u = Some s →
  lower (Path.suffix (filename f)) ∈ ALLOWED_EXTENSIONS →
  Z.of_nat (length (content f)) ≤ MAX_FILE_SIZE →
  disk_fault env = Some fault →
  let r := send_message Image_open uuid4 env llm session_id text (Some f)
             u w in
  let path := UPLOAD_DIR // pretty (user_id u) // pretty session_id
                // (uuid4 +:+ lower (Path.suffix (filename f))) in
  sessions (snd r) = sessions w
  ∧ messages (snd r) = messages w
  ∧ next_message_id (snd r) = next_message_id w
  ∧ clock (snd r) = clock w
  ∧ (∀ q, q ≠ path → fs (snd r) !! q = fs w !! q)
  ∧ (∀ llm' : Provider Image,
       send_message Image_open uuid4 env llm' session_id text (Some f) u w
       = r)
  ∧ match fault with
    | MkdirFails e => r = (Raise e, w)
    | OpenFails e =>
        r = (Raise (HTTPException 500
                      ("Failed to save file: " +:+ str_exn e)), w)
    | WriteFails e written =>
        fst r = Raise (HTTPException 500
                         ("Failed to save file: " +:+ str_exn e))
        ∧ fs (snd r) !! path = Some written
    end.
Proof.
  intros Hq Hext Hsize Hfault r path. subst r path.
  unfold send_message, handle_image_upload, save_uploaded_image.
  rewrite Hq, Hfault.
  rewrite bool_decide_eq_false_2 by (by intros ?).
  rewrite bool_decide_eq_false_2 by lia.
  destruct fault as [e|e|e written]; cbn; split_and!; try done;
    try (by destruct w).
  - intros q Hne. by apply lookup_insert_ne.
  - apply lookup_insert_eq.
Qed.

(** X16.  After a request with an image has returned, the user's message in
    the table refers to a file below the upload directory of the caller and
    session that holds the uploaded bytes; if the decoder accepts these
    bytes, the turn built from that message in a later request is the image
    followed by the text. *)
Theorem uploaded_image_reaches_later_context (uuid4 : string)
    (env : Env) llm (session_id : Z) (text : string)
    (f : UploadFile) u w (assistant_message : Message) (w' : World) :
  send_message Image_open uuid4 env llm session_id text (Some f) u w
  = (Return assistant_message, w') →
  ∃ (p : string) (user_message : Message),
    messages w' = messages w ++ [user_message; assistant_message]
    ∧ msg_role user_message = "user"
    ∧ msg_content user_message = text
    ∧ msg_image_path user_message = Some p
    ∧ below (UPLOAD_DIR // pretty (user_id u) // pretty session_id) p = true
    ∧ fs w' !! p = Some (content f)
    ∧ (∀ image, Image_open (content f) = Some image →
         message_turn Image_open (fs w') user_message
         = mkTurn "user" [ImagePart image; TextPart text]).
Proof.
  unfold send_message.
  destruct (query_session w session_id u) as [s|] eqn:Hq; [|done].
  destruct (handle_image_upload _ _ _ _ _ _) as [[image_path|e] w_up] eqn:Hup;
    [|done].
  destruct (handle_image_upload_return _ _ _ _ _ _ _ _ Hup)
    as (Hs & Hm & Hn & Hc & _ & Hsome).
  destruct (Hsome f eq_refl) as (p & -> & _).
  destruct (handle_image_upload_fs _ _ _ _ _ _ _ _ Hup) as (_ & _ & Hp).
  destruct (Hp p eq_refl) as (f' & [= <-] & Hpath & Hfile).
  cbn [db_add_message].
  destruct (process_chat_message _ _ _ _ _ _) as [reply|e]; [|done].
  intros [= <- <-].
  cbn [utcnow db_add_message messages sessions next_message_id clock fs].
  exists p. eexists. rewrite Hm, <- app_assoc. split; [reflexivity|].
  cbn [msg_role msg_content msg_image_path]. split_and!; try done.
  - rewrite Hpath. apply below_div.
  - intros image Hi. unfold message_turn, os_path_exists, load_image.
    cbn [msg_role msg_content msg_image_path from_option]. unfold id.
    rewrite Hfile, Hi.
    assert (truthy_str (Some p) = true) as ->.
    { rewrite Hpath. reflexivity. }
    reflexivity.
Qed.

End Frame.

(** ** Invariants kept by the endpoints *)

Section Invariants.
Context {Image : Type} (Image_open : list Byte.byte → option Image).
Implicit Types (w : World) (u : User) (llm : Provider Image).

Lemma store_ok_create_chat_session (new_id : Z) (now_str : string)
    (title : option string) u w :
  store_ok w → store_ok (snd (create_chat_session new_id now_str title u w)).
Proof.
  intros (Hs & Hc & Hu). unfold store_ok. cbn. split_and!; [done|..].
  - eapply Forall_impl; [done|]. simpl. lia.
  - apply map_Forall_insert_2; [simpl; lia|].
    eapply map_Forall_impl; [done|]. simpl. lia.
Qed.

(** X18.  If the rows of the store carry strictly increasing creation times
    that all lie in the past, they still do after [send_message], after
    [delete_chat_session] and after [create_chat_session], whatever the
    outcome of the request. *)
Theorem store_ok_kept_by_endpoints (uuid4 : string)
    (env : Env) llm (session_id : Z) (text : string)
    (image : option UploadFile) u w (new_id : Z) (now_str : string)
    (title : option string) :
  store_ok w →
  store_ok (snd (send_message Image_open uuid4 env llm session_id
                   text image u w))
  ∧ store_ok (snd (delete_chat_session session_id u w))
  ∧ store_ok (snd (create_chat_session new_id now_str title u w)).
Proof.
  intros Hok. split_and!.
  - by apply store_ok_send_message.
  - by apply store_ok_delete_chat_session.
  - by apply store_ok_create_chat_session.
Qed.

(** X19.  Primary keys of messages stay pairwise distinct and below the
    next key: the three endpoints keep this, so no request ever stores two
    messages under one key. *)
Theorem ids_ok_kept_by_endpoints (uuid4 : string)
    (env : Env) llm (session_id : Z) (text : string)
    (image : option UploadFile) u w (new_id : Z) (now_str : string)
    (title : option string) :
  ids_ok w →
  ids_ok (snd (send_message Image_open uuid4 env llm session_id
                 text image u w))
  ∧ ids_ok (snd (delete_chat_session session_id u w))
  ∧ ids_ok (snd (create_chat_session new_id now_str title u w)).
Proof.
  intros [Hlt Hnd]. split_and!.
  - destruct (send_message_changes Image_open uuid4 env llm
                session_id text image u w)
      as (added & Hm & _ & Hadded & Hnda & Hnext & _).
    unfold ids_ok. rewrite Hm. split.
    + apply Forall_app. split.
      * eapply Forall_impl; [done|]. simpl. lia.
      * eapply Forall_impl; [done|]. simpl. lia.
    + rewrite map_app. apply NoDup_app. split_and!; [done| |done].
      intros i Hi Hi'.
      apply list_elem_of_In, in_map_iff in Hi as (m & <- & Hm1).
      apply list_elem_of_In, in_map_iff in Hi' as (m' & Heq & Hm2).
      rewrite Forall_forall in Hlt, Hadded.
      apply list_elem_of_In in Hm1, Hm2.
      specialize (Hlt _ Hm1). specialize (Hadded _ Hm2). simpl in *. lia.
  - unfold delete_chat_session.
    destruct (query_session w session_id u); [|done].
    unfold ids_ok. cbn. split.
    + rewrite Forall_forall in *. intros m Hm.
      apply list_elem_of_filter in Hm. apply Hlt. tauto.
    + clear Hlt. induction (messages w) as [|m l IH]; [constructor|].
      cbn [map] in Hnd. apply NoDup_cons in Hnd as [Hm Hl].
      rewrite filter_cons. case_decide; [|by apply IH].
      cbn [map]. apply NoDup_cons. split; [|by apply IH].
      intros Hin. apply Hm.
      apply list_elem_of_In, in_map_iff in Hin as (m' & Heq & Hm').
      apply list_elem_of_In, in_map_iff. exists m'. split; [done|].
      apply list_elem_of_In in Hm'. apply list_elem_of_filter in Hm'.
      apply list_elem_of_In. tauto.
  - done.
Qed.

(** X20.  Every message belongs to a session of the store: the three
    endpoints keep this (messages are added to an existing session only, and
    the deletion of a session takes its messages along).  On such a store a
    session created under a new key starts with an empty log. *)
Theorem refs_ok_kept_by_endpoints (uuid4 : string)
    (env : Env) llm (session_id : Z) (text : string)
    (image : option UploadFile) u w (new_id : Z) (now_str : string)
    (title : option string) :
  refs_ok w →
  refs_ok (snd (send_message Image_open uuid4 env llm session_id
                  text image u w))
  ∧ refs_ok (snd (delete_chat_session session_id u w))
  ∧ refs_ok (snd (create_chat_session new_id now_str title u w))
  ∧ (sessions w !! new_id = None →
       get_session_messages new_id u
         (snd (create_chat_session new_id now_str title u w)) = Return []).
Proof.
  intros Href. unfold refs_ok in *. split_and!.
  - destruct (send_message_changes Image_open uuid4 env llm
                session_id text image u w)
      as (added & Hm & _ & Hadded & _ & _ & Hother & Hsame & _ & _ & _ & Hex).
    rewrite Hm. apply Forall_app. split.
    + eapply Forall_impl; [done|]. intros m [s Hs]. simpl in Hs.
      destruct (decide (msg_session_id m = session_id)) as [Heq|Hne].
      * rewrite Heq in Hs |- *. destruct (Hsame s Hs) as (s' & -> & _). eauto.
      * rewrite (Hother _ Hne). eauto.
    + destruct Hex as [-> | [s Hs]]; [constructor|].
      destruct (Hsame s Hs) as (s' & Hs' & _).
      eapply Forall_impl; [done|]. intros m [-> _]. eauto.
  - unfold delete_chat_session.
    destruct (query_session w session_id u); [|done]. cbn.
    rewrite Forall_forall in *. intros m Hm.
    apply list_elem_of_filter in Hm as [Hne Hm].
    rewrite lookup_delete_ne by done. by apply Href.
  - cbn. eapply Forall_impl; [done|]. intros m [s Hs]. simpl in Hs.
    destruct (decide (new_id = msg_session_id m)) as [->|Hne].
    + rewrite lookup_insert_eq. eauto.
    + rewrite lookup_insert_ne by done. eauto.
  - intros Hnew. unfold get_session_messages, query_session. cbn.
    rewrite lookup_insert_eq. cbn. rewrite bool_decide_eq_true_2 by done.
    f_equal. unfold query_messages. cbn.
    replace (filter _ (messages w)) with (@nil Message); [done|].
    symmetry. induction (messages w) as [|m l IH]; [done|].
    inversion Href as [|? ? [s Hs] Hl]; subst.
    rewrite filter_cons_False; [by apply IH|].
    intros Heq. rewrite Heq in Hs. congruence.
Qed.
End Invariants.

(** ** Creating, listing and deleting sessions *)

Section Sessions.
Context {Image : Type} (Image_open : list Byte.byte → option Image).
Implicit Types (w : World) (u : User) (llm : Provider Image).

Lemma insert_by_updated_at_desc_perm (x : Z * ChatSession)
    (l : list (Z * ChatSession)) :
  insert_by_updated_at_desc x l ≡ₚ x :: l.
Proof.
  induction l as [|y l IH]; simpl; [done|].
  destruct (cs_updated_at y.2 <=? cs_updated_at x.2); [done|].
  rewrite IH. apply Permutation_swap.
Qed.

Lemma order_by_updated_at_desc_perm (l : list (Z * ChatSession)) :
  order_by_updated_at_desc l ≡ₚ l.
Proof.
  induction l as [|x l IH]; simpl; [done|].
  by rewrite insert_by_updated_at_desc_perm, IH.
Qed.

Lemma order_by_updated_at_desc_sorted (l : list (Z * ChatSession)) :
  StronglySorted (λ a b, cs_updated_at b.2 ≤ cs_updated_at a.2)
    (order_by_updated_at_desc l).
Proof.
  induction l as [|x l IH]; simpl; [constructor|].
  induction IH as [|y l' Hl IH' Hy]; simpl; [repeat constructor|].
  destruct (Z.leb_spec (cs_updated_at y.2) (cs_updated_at x.2)) as [Hle|Hgt].
  - constructor; [by constructor|]. constructor; [done|].
    eapply Forall_impl; [done|]. simpl. lia.
  - constructor; [done|].
    rewrite insert_by_updated_at_desc_perm. constructor; [lia | done].
Qed.

Lemma elem_of_get_chat_sessions u w (k : Z) (s : ChatSession) :
  (k, s) ∈ get_chat_sessions u w
  ↔ sessions w !! k = Some s ∧ cs_user_id s = user_id u.
Proof.
  unfold get_chat_sessions.
  rewrite order_by_updated_at_desc_perm, list_elem_of_filter.
  rewrite elem_of_map_to_list. simpl. tauto.
Qed.

(** X21.  The list of sessions of a caller holds exactly the sessions of
    the store that he owns, each once and none of another user, in
    non-increasing order of their last update. *)
Theorem get_chat_sessions_own_sorted u w :
  (∀ (k : Z) (s : ChatSession),
     (k, s) ∈ get_chat_sessions u w
     ↔ sessions w !! k = Some s ∧ cs_user_id s = user_id u)
  ∧ NoDup (get_chat_sessions u w)
  ∧ StronglySorted (λ a b, cs_updated_at b.2 ≤ cs_updated_at a.2)
      (get_chat_sessions u w).
Proof.
  split_and!.
  - intros k s. apply elem_of_get_chat_sessions.
  - unfold get_chat_sessions. rewrite order_by_updated_at_desc_perm.
    apply NoDup_filter, NoDup_map_to_list.
  - apply order_by_updated_at_desc_sorted.
Qed.

(** X22.  [create_chat_session] adds one session owned by the caller, with
    the given title, or ["Chat <time>"] when the title is absent or empty.
    The owner finds it in his list and may address it; any other user gets
    not-found for it; the other sessions, the messages and the files are
    untouched. *)
Theorem create_chat_session_adds_own_session (new_id : Z) (now_str : string)
    (title : option string) u w :
  let row := fst (create_chat_session new_id now_str title u w) in
  let w' := snd (create_chat_session new_id now_str title u w) in
  fst row = new_id
  ∧ cs_user_id (snd row) = user_id u
  ∧ (title = None ∨ title = Some "" → cs_title (snd row) = "Chat " +:+ now_str)
  ∧ (∀ t, title = Some t → t ≠ "" → cs_title (snd row) = t)
  ∧ query_session w' new_id u = Some (snd row)
  ∧ row ∈ get_chat_sessions u w'
  ∧ (∀ u' : User, user_id u' ≠ user_id u →
       get_session_messages new_id u' w' = Raise not_found
       ∧ row ∉ get_chat_sessions u' w')
  ∧ (∀ k, k ≠ new_id → sessions w' !! k = sessions w !! k)
  ∧ messages w' = messages w
  ∧ fs w' = fs w.
Proof.
  intros row w'. subst row w'. cbn [create_chat_session fst snd].
  cbn [cs_user_id cs_title sessions messages fs].
  assert (∀ u0 s, query_session
            (mkWorld (<[new_id := s]> (sessions w)) (messages w)
               (next_message_id w) (clock w + 1) (fs w)) new_id u0
          = if bool_decide (cs_user_id s = user_id u0) then Some s else None)
    as Hq.
  { intros u0 s. unfold query_session. cbn. by rewrite lookup_insert_eq. }
  split_and!; try done.
  - by intros [-> | ->].
  - intros t -> Ht. by destruct t.
  - rewrite Hq. cbn. by rewrite bool_decide_eq_true_2.
  - apply elem_of_get_chat_sessions. cbn. by rewrite lookup_insert_eq.
  - intros u' Hu'. split.
    + unfold get_session_messages. rewrite Hq. cbn.
      by rewrite bool_decide_eq_false_2.
    + rewrite elem_of_get_chat_sessions. cbn. intros [_ ?]. congruence.
  - intros k Hk. by apply lookup_insert_ne.
Qed.

(** X23.  Deleting a session of the caller leaves the rows and the logs of
    all other sessions and all files as they were, and the session cannot be
    deleted or addressed a second time: both requests get not-found and
    change nothing. *)
Theorem delete_chat_session_isolation (uuid4 : string)
    (env : Env) llm (session_id : Z) (text : string)
    (image : option UploadFile) u w (s : ChatSession) :
  query_session w session_id u = Some s →
  let w' := snd (delete_chat_session session_id u w) in
  (∀ k, k ≠ session_id →
     sessions w' !! k = sessions w !! k
     ∧ query_messages w' k = query_messages w k)
  ∧ fs w' = fs w
  ∧ delete_chat_session session_id u w' = (Raise not_found, w')
  ∧ send_message Image_open uuid4 env llm session_id text image u w'
    = (Raise not_found, w').
Proof.
  intros Hq w'.
  assert (w' = db_delete_session session_id w) as ->.
  { subst w'. unfold delete_chat_session. by rewrite Hq. }
  assert (query_session (db_delete_session session_id w) session_id u = None)
    as Hgone.
  { unfold query_session. cbn. by rewrite lookup_delete_eq. }
  split_and!.
  - intros k Hk. split; [by apply lookup_delete_ne|].
    unfold query_messages. cbn. rewrite list_filter_filter. f_equal.
    apply list_filter_iff. intros m. split; [tauto|].
    intros Hm. split; [done | congruence].
  - done.
  - unfold delete_chat_session. by rewrite Hgone.
  - unfold send_message. by rewrite Hgone.
Qed.

Lemma send_message_return (uuid4 : string) (env : Env) llm
    (session_id : Z) (text : string) (image : option UploadFile) u w
    (assistant_message : Message) (w' : World) :
  send_message Image_open uuid4 env llm session_id text image u w
  = (Return assistant_message, w') →
  ∃ s, query_session w session_id u = Some s
       ∧ sessions w'
         = <[session_id := mkChatSession (cs_user_id s) (cs_title s)
                             (cs_created_at s) (clock w + 1)]> (sessions w).
Proof.
  unfold send_message.
  destruct (query_session w session_id u) as [s|] eqn:Hq; [|done].
  destruct (handle_image_upload _ _ _ _ _ _) as [[image_path|e] w_up] eqn:Hup;
    [|done].
  destruct (handle_image_upload_return _ _ _ _ _ _ _ _ Hup)
    as (Hs & Hm & Hn & Hc & _).
  cbn [db_add_message].
  destruct (process_chat_message _ _ _ _ _ _) as [reply|e]; [|done].
  intros [= <- <-]. exists s. split; [done|].
  cbn [utcnow db_add_message messages sessions next_message_id clock fs].
  by rewrite Hs, Hc.
Qed.

(** X24.  On an ordered store, a session that has just received a reply is
    the first in its owner's list of sessions. *)
Theorem replied_session_is_listed_first (uuid4 : string)
    (env : Env) llm (session_id : Z) (text : string)
    (image : option UploadFile) u w (assistant_message : Message)
    (w' : World) :
  store_ok w →
  send_message Image_open uuid4 env llm session_id text image u w
  = (Return assistant_message, w') →
  ∃ s', sessions w' !! session_id = Some s'
        ∧ head (get_chat_sessions u w') = Some (session_id, s').
Proof.
  intros (_ & _ & Hupd) Hsend.
  apply send_message_return in Hsend as (s & Hq & Hs').
  apply query_session_Some in Hq as [Hq Hown].
  set (s' := mkChatSession (cs_user_id s) (cs_title s) (cs_created_at s)
               (clock w + 1)) in *.
  assert (sessions w' !! session_id = Some s') as Hlook
    by by rewrite Hs', lookup_insert_eq.
  exists s'. split; [done|].
  assert ((session_id, s') ∈ get_chat_sessions u w') as Hin
    by by apply elem_of_get_chat_sessions.
  pose proof (order_by_updated_at_desc_sorted
                (filter (λ kv, cs_user_id kv.2 = user_id u)
                   (map_to_list (sessions w')))) as Hsorted.
  fold (get_chat_sessions u w') in Hsorted.
  destruct (get_chat_sessions u w') as [|[k sk] l] eqn:E.
  { by apply elem_of_nil in Hin. }
  cbn [head]. f_equal.
  assert ((k, sk) ∈ get_chat_sessions u w') as Hk by (rewrite E; left).
  apply elem_of_get_chat_sessions in Hk as [Hk _].
  destruct (decide (k = session_id)) as [->|Hne]; [congruence|].
  exfalso. rewrite Hs', lookup_insert_ne in Hk by done.
  specialize (Hupd _ _ Hk). simpl in Hupd.
  apply elem_of_cons in Hin as [[= ? ?] | Hin]; [congruence|].
  apply StronglySorted_inv in Hsorted as [_ Hall].
  rewrite Forall_forall in Hall. specialize (Hall _ Hin).
  simpl in Hall. lia.
Qed.
End Sessions.

(** ** Accounts *)

Section Accounts.
Variable get_password_hash : string → string.
Variable verify_password : string → string → bool.
Variable create_access_token : string → Z → string.
Variable verify_token : string → option (option Z).
Implicit Types (a : Accounts) (row : UserRow).

Lemma query_user_by_email_None a (email : string) :
  query_user_by_email a email = None
  ↔ ∀ row, row ∈ users a → user_email (row_user row) ≠ email.
Proof.
  unfold query_user_by_email. split.
  - intros Hnone row Hrow Heq.
    apply list_elem_of_In in Hrow.
    pose proof (find_none _ _ Hnone row Hrow) as Hf. simpl in Hf.
    by rewrite bool_decide_eq_true_2 in Hf.
  - intros Hall. destruct (find _ _) as [row|] eqn:E; [|done].
    apply find_some in E as [Hin Hb]. apply bool_decide_eq_true in Hb.
    apply list_elem_of_In in Hin. by destruct (Hall row Hin).
Qed.

Lemma query_user_by_email_Some a (email : string) row :
  query_user_by_email a email = Some row →
  row ∈ users a ∧ user_email (row_user row) = email.
Proof.
  unfold query_user_by_email. intros [Hin Hb]%find_some.
  apply bool_decide_eq_true in Hb. by apply list_elem_of_In in Hin.
Qed.

Lemma find_app_None {A} (f : A → bool) (l1 l2 : list A) :
  find f l1 = None → find f (l1 ++ l2) = find f l2.
Proof.
  induction l1 as [|x l1 IH]; [done|]. simpl.
  destruct (f x); [done | apply IH].
Qed.

(** What a successful registration returns and stores. *)
Lemma register_return (d : UserCreate) a :
  query_user_by_email a (uc_email d) = None →
  register get_password_hash create_access_token d a
  = (Return (mkTokenResponse
               (create_access_token (uc_email d) (next_user_id a)) "bearer"
               (mkUser (next_user_id a) (uc_email d) (uc_username d))),
     mkAccounts
       (users a
        ++ [mkUserRow (mkUser (next_user_id a) (uc_email d) (uc_username d))
              (get_password_hash (uc_password d))])
       (next_user_id a + 1)).
Proof. unfold register. by intros ->. Qed.

(** X25.  [register] fails exactly when the e-mail address is already in
    the table; it then raises the HTTP error 400 and leaves the table as it
    was.  Otherwise the table grows by one row with the next primary key
    and the given address and name, and the rows that were there are
    unchanged. *)
Theorem register_fails_iff_email_taken (d : UserCreate) a :
  let r := register get_password_hash create_access_token d a in
  (is_raise (fst r) = true
   ↔ ∃ row, row ∈ users a ∧ user_email (row_user row) = uc_email d)
  ∧ (is_raise (fst r) = true →
       r = (Raise (HTTPException 400 "Email already registered"), a))
  ∧ (is_raise (fst r) = false →
       ∃ row, users (snd r) = users a ++ [row]
              ∧ row_user row
                = mkUser (next_user_id a) (uc_email d) (uc_username d)
              ∧ row_hashed_password row = get_password_hash (uc_password d)
              ∧ next_user_id (snd r) = next_user_id a + 1).
Proof.
  intros r. subst r.
  destruct (query_user_by_email a (uc_email d)) as [row|] eqn:E.
  - unfold register. rewrite E. cbn. split_and!; [|done|done].
    split; [|done]. intros _. exists row.
    by apply query_user_by_email_Some.
  - rewrite (register_return d a E). cbn. split_and!; [|done|eauto].
    split; [done|]. intros (row & Hin & Heq).
    exfalso. by eapply (proj1 (query_user_by_email_None a _) E).
Qed.

(** X26.  [register] keeps the table of users well-formed: e-mail addresses
    stay pairwise distinct, and primary keys stay pairwise distinct and
    below the next key. *)
Theorem accounts_ok_register (d : UserCreate) a :
  accounts_ok a →
  accounts_ok (snd (register get_password_hash create_access_token d a)).
Proof.
  intros (He & Hlt & Hid).
  destruct (query_user_by_email a (uc_email d)) as [row|] eqn:E.
  { unfold register. by rewrite E. }
  rewrite (register_return d a E). unfold accounts_ok. cbn [snd users
    next_user_id].
  rewrite !map_app. cbn [map row_user user_email user_id]. split_and!.
  - apply NoDup_app. split_and!; [done| |repeat constructor; set_solver].
    intros e Hin Hin'. apply list_elem_of_singleton in Hin' as ->.
    apply list_elem_of_In, in_map_iff in Hin as (row & Heq & Hrow).
    apply list_elem_of_In in Hrow.
    by eapply (proj1 (query_user_by_email_None a _) E).
  - apply Forall_app. split.
    + eapply Forall_impl; [done|]. simpl. lia.
    + repeat constructor. simpl. lia.
  - apply NoDup_app. split_and!; [done| |repeat constructor; set_solver].
    intros i Hin Hin'. apply list_elem_of_singleton in Hin' as ->.
    apply list_elem_of_In, in_map_iff in Hin as (row & Heq & Hrow).
    apply list_elem_of_In in Hrow. rewrite Forall_forall in Hlt.
    specialize (Hlt _ Hrow). simpl in Hlt. lia.
Qed.

(** X27.  [login] answers an unknown e-mail address and a wrong password
    with the same HTTP error 401, so the answer does not tell whether the
    address is registered. *)
Theorem login_failures_indistinguishable (d : UserLogin)
    (a_unknown a_known : Accounts) row :
  query_user_by_email a_unknown (ul_email d) = None →
  query_user_by_email a_known (ul_email d) = Some row →
  verify_password (ul_password d) (row_hashed_password row) = false →
  login verify_password create_access_token d a_unknown
  = Raise (HTTPException 401 "Invalid credentials")
  ∧ login verify_password create_access_token d a_known
    = login verify_password create_access_token d a_unknown.
Proof.
  intros Hu Hk Hv. unfold login. by rewrite Hu, Hk, Hv.
Qed.

(** X28.  If the password check accepts the registered password against
    the hash stored at the registration, then after a successful
    registration a login with the same address and password succeeds: it
    returns the registered user with a bearer token that the issuer of the
    login request makes for that user's address and key (not necessarily
    the token of the registration).  With a password that the check refuses
    against the stored hash the login gets the error 401. *)
Theorem register_then_login (d : UserCreate) a (resp : TokenResponse)
    (other : string) (issue_at_login : string → Z → string) :
  verify_password (uc_password d) (get_password_hash (uc_password d)) = true →
  fst (register get_password_hash create_access_token d a) = Return resp →
  let a' := snd (register get_password_hash create_access_token d a) in
  login verify_password issue_at_login
    (mkUserLogin (uc_email d) (uc_password d)) a'
  = Return (mkTokenResponse
              (issue_at_login (uc_email d) (user_id (token_user resp)))
              "bearer" (token_user resp))
  ∧ token_user resp = mkUser (next_user_id a) (uc_email d) (uc_username d)
  ∧ (verify_password other (get_password_hash (uc_password d)) = false →
       login verify_password issue_at_login
         (mkUserLogin (uc_email d) other) a'
       = Raise (HTTPException 401 "Invalid credentials")).
Proof.
  intros Hv Hreg a'. subst a'.
  destruct (query_user_by_email a (uc_email d)) as [row|] eqn:E.
  { unfold register in Hreg. by rewrite E in Hreg. }
  rewrite (register_return d a E) in Hreg |- *. cbn [fst snd] in *.
  injection Hreg as <-.
  assert (∀ pw, query_user_by_email
            (mkAccounts
               (users a
                ++ [mkUserRow
                      (mkUser (next_user_id a) (uc_email d) (uc_username d))
                      (get_password_hash (uc_password d))])
               (next_user_id a + 1))
            (ul_email (mkUserLogin (uc_email d) pw))
          = Some (mkUserRow
                    (mkUser (next_user_id a) (uc_email d) (uc_username d))
                    (get_password_hash (uc_password d)))) as Hfind.
  { intros pw. unfold query_user_by_email in *. cbn [users ul_email].
    rewrite find_app_None by done. cbn.
    by rewrite bool_decide_eq_true_2. }
  unfold login. rewrite !Hfind. cbn [row_hashed_password ul_password row_user
    user_email user_id token_user]. rewrite Hv.
  split_and!; [done | done | by intros ->].
Qed.

Lemma find_id_app_fresh (l : list UserRow) row (bound : Z) :
  Forall (λ r, user_id (row_user r) < bound) l →
  user_id (row_user row) = bound →
  find (λ r, bool_decide (user_id (row_user r) = bound)) (l ++ [row])
  = Some row.
Proof.
  intros Hl Hrow. rewrite find_app_None.
  - cbn. by rewrite bool_decide_eq_true_2.
  - induction Hl as [|x l Hx Hl IH]; [done|]. cbn.
    rewrite bool_decide_eq_false_2 by lia. done.
Qed.

(** X29.  If the token check accepts the token issued at the registration
    and finds the registered key in it, then on a well-formed table the
    bearer of that token is recognised as the registered user. *)
Theorem register_then_get_current_user (d : UserCreate) a
    (resp : TokenResponse) :
  accounts_ok a →
  fst (register get_password_hash create_access_token d a) = Return resp →
  verify_token (access_token resp) = Some (Some (user_id (token_user resp))) →
  get_current_user verify_token (access_token resp)
    (snd (register get_password_hash create_access_token d a))
  = Return (token_user resp).
Proof.
  intros (_ & Hlt & _) Hreg Hv.
  destruct (query_user_by_email a (uc_email d)) as [row|] eqn:E.
  { unfold register in Hreg. by rewrite E in Hreg. }
  rewrite (register_return d a E) in Hreg |- *. cbn [fst snd] in *.
  injection Hreg as <-. cbn in Hv.
  unfold get_current_user. cbn [access_token]. rewrite Hv.
  unfold query_user_by_id. cbn [users].
  by rewrite (find_id_app_fresh (users a) _ (next_user_id a) Hlt)
    by reflexivity.
Qed.

(** X30.  [get_current_user] fails with the HTTP error 401 only, and with
    "Invalid authentication credentials" for a token that the check
    rejects; a user it returns is a row of the table whose primary key is
    the one found in the token. *)
Theorem get_current_user_only_registered (token : string) a :
  let r := get_current_user verify_token token a in
  (verify_token token = None →
     r = Raise (HTTPException 401 "Invalid authentication credentials"))
  ∧ (verify_token token = Some None →
       r = Raise (HTTPException 401 "User not found"))
  ∧ (∀ e, r = Raise e → ∃ detail, e = HTTPException 401 detail)
  ∧ (∀ u, r = Return u →
       verify_token token = Some (Some (user_id u))
       ∧ ∃ row, row ∈ users a ∧ row_user row = u).
Proof.
  intros r. subst r. unfold get_current_user.
  destruct (verify_token token) as [[i|]|]; cbn.
  - destruct (find _ _) as [row|] eqn:E.
    + apply find_some in E as [Hin Hb]. apply bool_decide_eq_true in Hb.
      apply list_elem_of_In in Hin.
      split_and!; try done. intros u [= <-]. rewrite Hb. eauto.
    + split_and!; try done. intros e [= <-]. eauto.
  - split_and!; try done. intros e [= <-]. eauto.
  - split_and!; try done. intros e [= <-]. eauto.
Qed.
End Accounts.

(** ** The further properties at concrete inputs *)

Section MoreInstances.
Import Demo DemoAuth.

Lemma png_allowed : lower (Path.suffix (filename png)) ∈ ALLOWED_EXTENSIONS.
Proof. apply (bool_decide_unpack _). vm_compute. exact I. Qed.

Lemma save_png :
  save_uploaded_image "3f2a" env_ok png 1 1 ∅
  = (Return "uploads/1/1/3f2a.png",
     <["uploads/1/1/3f2a.png" := content png]> ∅).
Proof. vm_compute. reflexivity. Qed.

Lemma send_w0_w1 :
  send_message Image_open "3f2a" env_ok llm_ok 1 "look at my cat" (Some png)
    alice w0
  = (Return (mkMessage 2 1 "assistant" "Hello!" None 4), w1).
Proof. vm_compute. reflexivity. Qed.

Lemma ids_ok_w0 : ids_ok w0.
Proof. split; constructor. Qed.

Lemma refs_ok_w0 : refs_ok w0.
Proof. constructor. Qed.

Lemma accounts_ok_a0 : accounts_ok a0.
Proof. split_and!; constructor. Qed.

Lemma register_alice :
  fst (register get_password_hash create_access_token alice_data a0)
  = Return (mkTokenResponse "1:alice@example.org" "bearer"
              (mkUser 1 "alice@example.org" "alice")).
Proof. vm_compute. reflexivity. Qed.

Lemma save_uploaded_image_stores_witness :
  save_uploaded_image "3f2a" env_ok png 1 1 ∅
  = (Return "uploads/1/1/3f2a.png",
     <["uploads/1/1/3f2a.png" := content png]> ∅)
  ∧ below (UPLOAD_DIR // pretty 1 // pretty 1) "uploads/1/1/3f2a.png" = true.
Proof.
  split; [exact save_png|].
  exact (proj1 (proj2 (proj2
           (save_uploaded_image_stores _ _ _ _ _ _ _ _ save_png)))).
Defined.

Lemma accepted_upload_has_stem_and_extension_witness :
  save_uploaded_image "3f2a" env_ok png 1 1 ∅
  = (Return "uploads/1/1/3f2a.png",
     <["uploads/1/1/3f2a.png" := content png]> ∅)
  ∧ ∃ stem ext, stem ≠ "" ∧ Path.name (filename png) = stem +:+ ext
                ∧ lower ext ∈ ALLOWED_EXTENSIONS.
Proof.
  split; [exact save_png|].
  exact (accepted_upload_has_stem_and_extension _ _ _ _ _ _ _ _ save_png).
Defined.

Lemma save_then_delete_session_images_witness :
  save_uploaded_image "3f2a" env_ok png 1 1 ∅
  = (Return "uploads/1/1/3f2a.png",
     <["uploads/1/1/3f2a.png" := content png]> ∅)
  ∧ delete_session_images 1 1 (<["uploads/1/1/3f2a.png" := content png]> ∅)
      !! "uploads/1/1/3f2a.png" = None.
Proof.
  split; [exact save_png|].
  exact (proj1 (save_then_delete_session_images _ _ _ _ _ _ _ _ save_png)).
Defined.

Lemma get_image_url_strips_upload_dir_witness :
  contains "uploads/" "1/1/3f2a.png" = false
  ∧ get_image_url ("uploads/" +:+ "1/1/3f2a.png")
    = "/api/images/" +:+ "1/1/3f2a.png".
Proof.
  assert (contains "uploads/" "1/1/3f2a.png" = false) as H by reflexivity.
  split; [exact H|].
  exact (proj1 (get_image_url_strips_upload_dir _ H)).
Defined.

Lemma get_image_url_of_stored_upload_witness :
  save_uploaded_image "3f2a" env_ok png 1 1 ∅
  = (Return "uploads/1/1/3f2a.png",
     <["uploads/1/1/3f2a.png" := content png]> ∅)
  ∧ has_char "u" "3f2a" = false
  ∧ get_image_url "uploads/1/1/3f2a.png"
    = "/api/images/" +:+ pretty 1 +:+ "/" +:+ pretty 1 +:+ "/"
        +:+ "3f2a" +:+ lower (Path.suffix (filename png)).
Proof.
  assert (has_char "u" "3f2a" = false) as H by reflexivity.
  split; [exact save_png|]. split; [exact H|].
  exact (get_image_url_of_stored_upload _ _ _ _ _ _ _ _ save_png H).
Defined.

Lemma history_turns_well_formed_witness :
  mkTurn "model" [TextPart "hello"]
    ∈ build_message_history Image_open ∅ [u1; Demo.a1; u2; u3]
  ∧ ∃ m, m ∈ [u1; Demo.a1; u2; u3]
         ∧ parts (mkTurn (Image := Image) "model" [TextPart "hello"])
           = [TextPart (msg_content m)].
Proof.
  assert (mkTurn "model" [TextPart "hello"]
            ∈ build_message_history Image_open ∅ [u1; Demo.a1; u2; u3]) as H.
  { vm_compute. repeat constructor. }
  split; [exact H|].
  destruct (history_turns_well_formed Image_open ∅ _ _ H)
    as (m & Hm & _ & [Hp | (p & b & image & _ & Hb & _)]).
  - exists m. split; [exact Hm | exact Hp].
  - rewrite lookup_empty in Hb. discriminate Hb.
Defined.


Lemma get_session_messages_sorted_log_witness :
  get_session_messages 1 alice w1
  = Return [mkMessage 1 1 "user" "look at my cat"
              (Some "uploads/1/1/3f2a.png") 2;
            mkMessage 2 1 "assistant" "Hello!" None 4]
  ∧ (length [mkMessage 1 1 "user" "look at my cat"
               (Some "uploads/1/1/3f2a.png") 2;
             mkMessage 2 1 "assistant" "Hello!" None 4]
     ≤ length (messages w1))%nat.
Proof.
  assert (get_session_messages 1 alice w1
          = Return [mkMessage 1 1 "user" "look at my cat"
                      (Some "uploads/1/1/3f2a.png") 2;
                    mkMessage 2 1 "assistant" "Hello!" None 4]) as H
    by (vm_compute; reflexivity).
  split; [exact H|].
  exact (proj2 (proj2 (proj2 (get_session_messages_sorted_log _ _ _ _ H)))).
Defined.

Lemma disk_failure_persists_no_message_witness :
  query_session w0 1 alice = Some (mkChatSession 1 "Chat A" 0 0)
  ∧ (lower (Path.suffix (filename png)) ∈ ALLOWED_EXTENSIONS)
  ∧ Z.of_nat (length (content png)) ≤ MAX_FILE_SIZE
  ∧ disk_fault env_full
    = Some (WriteFails
              (PyException "OSError" "[Errno 28] No space left on device") [])
  ∧ messages (snd (send_message Image_open "3f2a" env_full llm_ok 1 "hi"
                     (Some png) alice w0)) = messages w0
  ∧ fs (snd (send_message Image_open "3f2a" env_full llm_ok 1 "hi"
               (Some png) alice w0))
      !! (UPLOAD_DIR // pretty (user_id alice) // pretty 1
            // ("3f2a" +:+ lower (Path.suffix (filename png))))
    = Some [].
Proof.
  assert (query_session w0 1 alice = Some (mkChatSession 1 "Chat A" 0 0))
    as Hq by (vm_compute; reflexivity).
  assert (Z.of_nat (length (content png)) ≤ MAX_FILE_SIZE) as Hs
    by (unfold MAX_FILE_SIZE; simpl; lia).
  assert (disk_fault env_full
          = Some (WriteFails
                    (PyException "OSError"
                       "[Errno 28] No space left on device") [])) as Hd
    by reflexivity.
  split; [exact Hq|]. split; [exact png_allowed|]. split; [exact Hs|].
  split; [exact Hd|].
  pose proof (disk_failure_persists_no_message Image_open "3f2a" env_full _
                llm_ok 1 "hi" png alice w0 _ Hq png_allowed Hs Hd)
    as (_ & Hm & _ & _ & _ & _ & _ & Hf).
  split; [exact Hm | exact Hf].
Defined.

Lemma uploaded_image_reaches_later_context_witness :
  send_message Image_open "3f2a" env_ok llm_ok 1 "look at my cat" (Some png)
    alice w0
  = (Return (mkMessage 2 1 "assistant" "Hello!" None 4), w1)
  ∧ ∃ p, fs w1 !! p = Some (content png).
Proof.
  split; [exact send_w0_w1|].
  destruct (uploaded_image_reaches_later_context Image_open _ _ _ _ _ _ _ _ _
              _ send_w0_w1) as (p & um & _ & _ & _ & _ & _ & Hf & _).
  exists p. exact Hf.
Defined.


Lemma store_ok_kept_by_endpoints_witness :
  store_ok w0 ∧ store_ok w1.
Proof.
  split; [exact store_ok_w0|].
  exact (proj1 (store_ok_kept_by_endpoints Image_open "3f2a" env_ok llm_ok 1
                  "look at my cat" (Some png) alice w0 3 "" None store_ok_w0)).
Defined.

Lemma ids_ok_kept_by_endpoints_witness :
  ids_ok w0 ∧ ids_ok w1.
Proof.
  split; [exact ids_ok_w0|].
  exact (proj1 (ids_ok_kept_by_endpoints Image_open "3f2a" env_ok llm_ok 1
                  "look at my cat" (Some png) alice w0 3 "" None ids_ok_w0)).
Defined.

Lemma refs_ok_kept_by_endpoints_witness :
  refs_ok w0 ∧ refs_ok w1.
Proof.
  split; [exact refs_ok_w0|].
  exact (proj1 (refs_ok_kept_by_endpoints Image_open "3f2a" env_ok llm_ok 1
                  "look at my cat" (Some png) alice w0 3 "" None refs_ok_w0)).
Defined.

Lemma delete_chat_session_isolation_witness :
  query_session w0 2 bob = Some (mkChatSession 2 "Chat B" 1 1)
  ∧ fs w2 = fs w0
  ∧ delete_chat_session 2 bob w2 = (Raise not_found, w2).
Proof.
  assert (query_session w0 2 bob = Some (mkChatSession 2 "Chat B" 1 1))
    as Hq by (vm_compute; reflexivity).
  split; [exact Hq|].
  pose proof (delete_chat_session_isolation Image_open "3f2a" env_ok llm_ok 2
                "hi" None bob w0 _ Hq) as (_ & H1 & H2 & _).
  split; [exact H1 | exact H2].
Defined.

Lemma replied_session_is_listed_first_witness :
  store_ok w0
  ∧ send_message Image_open "3f2a" env_ok llm_ok 1 "look at my cat" (Some png)
      alice w0
    = (Return (mkMessage 2 1 "assistant" "Hello!" None 4), w1)
  ∧ ∃ s', sessions w1 !! 1 = Some s'
          ∧ head (get_chat_sessions alice w1) = Some (1, s').
Proof.
  split; [exact store_ok_w0|]. split; [exact send_w0_w1|].
  exact (replied_session_is_listed_first Image_open _ _ _ _ _ _ _ _ _ _
           store_ok_w0 send_w0_w1).
Defined.

Lemma accounts_ok_register_witness :
  accounts_ok a0 ∧ accounts_ok a1.
Proof.
  split; [exact accounts_ok_a0|].
  exact (accounts_ok_register get_password_hash create_access_token
           alice_data a0 accounts_ok_a0).
Defined.

Lemma login_failures_indistinguishable_witness :
  query_user_by_email a0 "alice@example.org" = None
  ∧ query_user_by_email a1 "alice@example.org"
    = Some (mkUserRow (mkUser 1 "alice@example.org" "alice") "h$s3cret")
  ∧ verify_password "guess" "h$s3cret" = false
  ∧ login verify_password create_access_token
      (mkUserLogin "alice@example.org" "guess") a1
    = login verify_password create_access_token
        (mkUserLogin "alice@example.org" "guess") a0.
Proof.
  assert (query_user_by_email a0 "alice@example.org" = None) as H0
    by reflexivity.
  assert (query_user_by_email a1 "alice@example.org"
          = Some (mkUserRow (mkUser 1 "alice@example.org" "alice")
                    "h$s3cret")) as H1 by (vm_compute; reflexivity).
  assert (verify_password "guess" "h$s3cret" = false) as Hv
    by (vm_compute; reflexivity).
  split; [exact H0|]. split; [exact H1|]. split; [exact Hv|].
  exact (proj2 (login_failures_indistinguishable verify_password
                  create_access_token
                  (mkUserLogin "alice@example.org" "guess") a0 a1 _ H0 H1 Hv)).
Defined.

Lemma register_then_login_witness :
  verify_password (uc_password alice_data)
    (get_password_hash (uc_password alice_data)) = true
  ∧ login verify_password issue_later
      (mkUserLogin (uc_email alice_data) (uc_password alice_data)) a1
    = Return (mkTokenResponse "t2:1:alice@example.org" "bearer"
                (mkUser 1 "alice@example.org" "alice")).
Proof.
  assert (verify_password (uc_password alice_data)
            (get_password_hash (uc_password alice_data)) = true) as Hv
    by (vm_compute; reflexivity).
  split; [exact Hv|].
  exact (proj1 (register_then_login get_password_hash verify_password
                  create_access_token alice_data a0 _ "guess" issue_later Hv
                  register_alice)).
Defined.

Lemma register_then_get_current_user_witness :
  accounts_ok a0
  ∧ verify_token "1:alice@example.org" = Some (Some 1)
  ∧ get_current_user verify_token "1:alice@example.org" a1
    = Return (mkUser 1 "alice@example.org" "alice").
Proof.
  assert (verify_token "1:alice@example.org" = Some (Some 1)) as Hv
    by (vm_compute; reflexivity).
  split; [exact accounts_ok_a0|]. split; [exact Hv|].
  exact (register_then_get_current_user get_password_hash create_access_token
           verify_token alice_data a0 _ accounts_ok_a0 register_alice Hv).
Defined.
End MoreInstances.

(** ** An empty reply *)

Section EmptyReply.
Import Demo.

(** C9 as stated fails: the provider answers with a response whose text is
    the empty string; the accessor gives that text, and the dispatcher
    returns it as a successful, empty reply. *)
Lemma empty_text_is_returned_as_success :
  let reply := process_chat_message Image_open llm_empty ∅ "hi" None None in
  llm_empty (history_of Image_open ∅ None)
            (current_parts_of Image_open ∅ "hi" None)
  = ProviderResponse (Return "")
  ∧ reply = Return ""
  ∧ is_raise reply = false.
Proof. split_and!; reflexivity. Qed.
End EmptyReply.
